(** * Purge workflow of mu: stack inventory filters, bucket termination and
      plan assembly (workflows/purge.go)

    A shallow embedding of [workflows/purge.go].  Go slices are lists, the
    [Tags] map of a stack is a finite map from strings to strings, and the
    remote control plane is an abstract world threaded through every
    collaborator call. *)

From Stdlib Require Import String Ascii ZArith List Bool Lia.
From stdpp Require Import base option list gmap strings.

Import ListNotations.
Local Open Scope string_scope.
Local Open Scope list_scope.

(** ** Data model (package [common]) *)

(** [type StackType string] *)
Abbreviation StackType := string.

(** Modelled from the spec: the constants of [common.StackType] are declared
    outside this file; the classification values are [service],
    [environment], [pipeline] and [bucket]. *)
Definition StackTypeService : StackType := "service".
Definition StackTypeEnv : StackType := "environment".
Definition StackTypePipeline : StackType := "pipeline".
Definition StackTypeBucket : StackType := "bucket".

(** Modelled from the spec: [cloudformation.StackStatusRollbackComplete] is
    a constant of the AWS SDK, the status of a stack whose creation was
    rolled back. *)
Definition StackStatusRollbackComplete : string := "ROLLBACK_COMPLETE".

(** [common.Stack]: the fields the purge workflow reads. *)
Record Stack : Type := mkStack {
  Name : string;
  Status : string;
  StatusReason : string;
  Tags : gmap string string;
  LastUpdateTime : Z
}.

(** Go's [m[k]] on a [map[string]string]: the zero value [""] when the key
    is missing. *)
Definition index (m : gmap string string) (k : string) : string :=
  default "" (m !! k).

(** Go's [v, ok := m[k]]. *)
Definition index_ok (m : gmap string string) (k : string) : string * bool :=
  match m !! k with
  | Some v => (v, true)
  | None => ("", false)
  end.

(** ** Stack inventory filters *)

(** [removeStacksByStatus]: the inner loop raises [found] on every match and
    never lowers it; the outer loop appends the stacks not found. *)
Definition removeStacksByStatus (stacks : list Stack) (statuses : list string)
  : list Stack :=
  fold_left
    (fun ret stack =>
       let found :=
         fold_left
           (fun found status =>
              if String.eqb (Status stack) status then true else found)
           statuses false in
       if negb found then ret ++ [stack] else ret)
    stacks [].

(** [filterStacksByType]: appends the stacks whose [Tags["type"]] equals the
    string of the requested type. *)
Definition filterStacksByType (stacks : list Stack) (stackType : StackType)
  : list Stack :=
  fold_left
    (fun ret stack =>
       if String.eqb (index (Tags stack) "type") stackType
       then ret ++ [stack] else ret)
    stacks [].

(** The two filters as the specification words them.  [ExcludeByStatus]
    keeps the stacks whose status is not a member of the exclusion set;
    [SelectByType] keeps the stacks that carry a [type] tag equal to the
    requested value. *)
Definition ExcludeByStatus (S : list Stack) (E : list string) : list Stack :=
  List.filter (fun s => negb (bool_decide (Status s ∈ E))) S.

Definition SelectByType (S : list Stack) (T : StackType) : list Stack :=
  List.filter (fun s => bool_decide (Tags s !! "type" = Some T)) S.

(** ** Errors, resources and log lines *)

(** Go's [error]: either an [awserr.Error] of the AWS SDK, with its code and
    message, or any other error, with its text. *)
Inductive error : Type :=
| awserr_Error (code message : string)
| other_error (text : string).

(** [aerr.Error()] for an SDK error and the [%v] rendering otherwise. *)
Definition Error (e : error) : string :=
  match e with
  | awserr_Error code message => code ++ ": " ++ message
  | other_error text => text
  end.

(** [cloudformation.StackResource]: the workflow reads the physical id only,
    and dereferences it unconditionally. *)
Record Resource : Type := mkResource { PhysicalResourceId : string }.

Inductive Level : Type := Debug | Info | Warning | Failure.

(** One constructor per format string of [purge.go], with its arguments. *)
Inductive Message : Type :=
| msg_resources (resources : list Resource)
    (* "resources %V" *)
| msg_delete_bucket (fullname : string)
    (* "delete bucket: fullname=%s" *)
| msg_error (text : string)
    (* "%v" *)
| msg_failed_status (status reason : string)
    (* "Ended in failed status %s %s" *)
| msg_bucket_not_deleted (text : string)
    (* "couldn't delete S3 Bucket %s %v": the first verb is given the
       [*string] itself, not the string it points to, so the line shows an
       address and not the name of the bucket; the address is not kept *)
| msg_list_failed
    (* "couldn't list stacks (all)" *)
| msg_bucket_stack (name : string) (tags : gmap string string)
    (* "%s %v" *)
| msg_total (stackCount executors : nat)
    (* "total of %d stacks of %d types to purge" *)
| msg_step_failed (text : string).
    (* the line of the continue-on-error composite *)

(** [strings.HasSuffix]. *)
Definition HasSuffix (s suffix : string) : bool :=
  (String.length suffix <=? String.length s)%nat
  && String.eqb
       (substring (String.length s - String.length suffix)
                  (String.length suffix) s)
       suffix.

(** ** Workflow structs and the steps of a plan *)

Record purgeWorkflow : Type := mkPurgeWorkflow { RepoName : string }.
Record bucketTerminateWorkflow : Type := mkBucketTerminate { Bucket : Stack }.

(** An executor of the plan, by the function that built it and the arguments
    the purge passes.  The first twelve are built by the sibling workflows
    (service, environment, pipeline); the managers they receive are those of
    the context and are left out. *)
Inductive Step : Type :=
| serviceInput (serviceName : string)
| serviceUndeployer (namespace environmentName : string)
| environmentServiceTerminator (envName : string)
| environmentDbTerminator (envName : string)
| environmentEcsTerminator (namespace envName : string)
| environmentConsulTerminator (namespace envName : string)
| environmentRolesetTerminator (envName : string)
| environmentElbTerminator (namespace envName : string)
| environmentVpcTerminator (namespace envName : string)
| serviceFinder (serviceName : string)
| pipelineTerminator (namespace : string)
| pipelineRolesetTerminator
| bucketTerminate (workflow : bucketTerminateWorkflow).

(** A row handed to [table.Append]; the cells are kept unformatted. *)
Record Row : Type := mkRow {
  row_type : string;
  row_name : string;
  row_status : string;
  row_reason : string;
  row_time : Z
}.

(** ** What a run does, in order *)

(** The collaborator methods the workflow calls, with their arguments. *)
Inductive Op : Type :=
| op_ListStacks (stackType : StackType)
| op_GetResourcesForStack (stack : Stack)
| op_DeleteS3BucketObjects (bucketName : string)
| op_DeleteStack (stackName : string)
| op_AwaitFinalStatus (stackName : string)
| op_DeleteS3Bucket (bucketName : string).

Inductive Result : Type :=
| res_stacks (stacks : list Stack) (err : option error)
| res_resources (resources : list Resource) (err : option error)
| res_error (err : option error)
| res_stack (stack : option Stack).

(** The timeline of a run: collaborator calls with what they returned, log
    lines, table output, and a mark each time an executor of a plan is
    entered. *)
Inductive Obs : Type :=
| Called (op : Op) (res : Result)
| Logged (lvl : Level) (msg : Message)
| Appended (row : Row)
| Rendered
| Started (s : Step).

Definition ops (out : list Obs) : list Op :=
  omap (fun o => match o with Called op _ => Some op | _ => None end) out.

Definition logged (out : list Obs) : list (Level * Message) :=
  omap (fun o => match o with Logged l m => Some (l, m) | _ => None end) out.

Definition started (out : list Obs) : list Step :=
  omap (fun o => match o with Started s => Some s | _ => None end) out.



(** What the two loops of the bucket terminator may emit. *)
Definition drain_obs (o : Obs) : bool :=
  match o with
  | Logged Debug (msg_delete_bucket _) => true
  | Called (op_DeleteS3BucketObjects _) (res_error _) => true
  | _ => false
  end.

Definition delete_obs (o : Obs) : bool :=
  match o with
  | Called (op_DeleteS3Bucket _) (res_error _) => true
  | Logged Failure (msg_bucket_not_deleted _) => true
  | _ => false
  end.

(** The line logged for the outcome of [DeleteStack], and the line logged for
    the stack returned by [AwaitFinalStatus]. *)
Definition deleteStackLog (err : option error) : list Obs :=
  match err with
  | Some e => [Logged Failure (msg_error (Error e))]
  | None => []
  end.

Definition finalStatusLog (svcStack : option Stack) : list Obs :=
  match svcStack with
  | Some svc =>
      if HasSuffix (Status svc) "_COMPLETE" then []
      else [Logged Failure (msg_failed_status (Status svc) (StatusReason svc))]
  | None => []
  end.

(** The steps the purge appends for a service stack. *)
Definition is_service_step (s : Step) : bool :=
  match s with
  | serviceInput _ | serviceUndeployer _ _ => true
  | _ => false
  end.

Section Workflows.

(** Everything outside this file: the control plane behind the stack
    manager, and the private state and output of the sibling workflows. *)
Context {World : Type}.

(** [common.StackTypeAll]. *)
Variable StackTypeAll : StackType.

(** The computations of the workflow: they read and change the world and
    emit a timeline. *)
Definition M (A : Type) : Type := World -> A * World * list Obs.

Definition ret {A} (a : A) : M A := fun w => (a, w, []).

Definition bind {A B} (c : M A) (k : A -> M B) : M B :=
  fun w =>
    let '(a, w1, out1) := c w in
    let '(b, w2, out2) := k a w1 in
    (b, w2, out1 ++ out2).

Notation "'run' x <- c ;; k" := (bind c (fun x => k))
  (at level 10, x name, c at level 99, k at level 200,
   format "'[v' 'run'  x  <-  c  ;; '/' k ']'").
Notation "'run' ' pat <- c ;; k" :=
  (bind c (fun x => match x with pat => k end))
  (at level 10, pat pattern, c at level 99, k at level 200,
   format "'[v' 'run'  ' pat  <-  c  ;; '/' k ']'").

(** The result, the world left behind and the timeline of a computation
    started in world [w]. *)
Definition value {A} (c : M A) (w : World) : A := fst (fst (c w)).
Definition after {A} (c : M A) (w : World) : World := snd (fst (c w)).
Definition output {A} (c : M A) (w : World) : list Obs := snd (c w).

Definition emit (o : Obs) : M unit := fun w => (tt, w, [o]).

Definition log (lvl : Level) (msg : Message) : M unit :=
  emit (Logged lvl msg).

(** A collaborator call: the world moves on and the call is recorded with
    its result. *)
Definition call {A} (op : Op) (res : A -> Result) (f : World -> A * World)
  : M A :=
  fun w => let '(a, w1) := f w in (a, w1, [Called op (res a)]).

(** [for _, x := range l { body }] *)
Fixpoint forRange {A} (l : list A) (body : A -> M unit) : M unit :=
  match l with
  | [] => ret tt
  | x :: rest => run _ <- body x ;; forRange rest body
  end.

(** [for _, x := range l { acc = body(x, acc) }] *)
Fixpoint forRangeAcc {A S} (l : list A) (body : A -> S -> M S) (acc : S)
  : M S :=
  match l with
  | [] => ret acc
  | x :: rest => run acc1 <- body x acc ;; forRangeAcc rest body acc1
  end.

(** [type Executor func() error] *)
Definition Executor : Type := M (option error).

(** The collaborator interfaces of package [common] ([StackLister],
    [StackDeleter], [StackWaiter], [BucketObjectDeleter], [BucketDeleter]),
    as the one record of the methods the stack manager implements; a
    parameter typed by a narrow interface uses its methods only. *)
Record StackManager : Type := mkStackManager {
  ListStacks : StackType -> World -> (list Stack * option error) * World;
  GetResourcesForStack :
    Stack -> World -> (list Resource * option error) * World;
  DeleteS3BucketObjects : string -> World -> option error * World;
  DeleteStack : string -> World -> option error * World;
  AwaitFinalStatus : string -> World -> option Stack * World;
  DeleteS3Bucket : string -> World -> option error * World
}.

(** [common.Context]: [ctx.Config.Namespace] and [ctx.StackManager]. *)
Record Context : Type := mkContext {
  ctx_Namespace : string;
  ctx_StackManager : StackManager
}.

(** The executors built by the sibling workflows, by what they do to the
    world and what they return. *)
Variable sibling : Step -> World -> option error * World.

(** *** Executor composition *)


(** Modelled from the spec: [newPipelineExecutorNoStop] is not in this
    file.  Continue-on-error composition: executes every member in order
    regardless of prior failures; each failure is logged individually; the
    composite itself signals success once all members have run. *)
Fixpoint newPipelineExecutorNoStop (executors : list Executor) : Executor :=
  match executors with
  | [] => ret None
  | executor :: rest =>
      run err <- executor ;;
      run _ <- match err with
          | Some e => log Warning (msg_step_failed (Error e))
          | None => ret tt
          end ;;
      newPipelineExecutorNoStop rest
  end.

(** *** Bucket termination *)

Definition bucketTerminator (workflow : bucketTerminateWorkflow)
    (ctx : Context)
    (bucketDeleter bucketObjectDeleter stackDeleter stackLister stackWaiter
       : StackManager)
  : Executor :=
  run '(resources, err) <-
    call (op_GetResourcesForStack (Bucket workflow))
         (fun r => res_resources (fst r) (snd r))
         (GetResourcesForStack stackLister (Bucket workflow)) ;;
  run _ <- log Info (msg_resources resources) ;;
  match err with
  | Some e => ret (Some e)
  | None =>
      run _ <- forRange resources (fun resource =>
        let fqBucketName := PhysicalResourceId resource in
        run _ <- log Debug (msg_delete_bucket fqBucketName) ;;
        (* empty the bucket first *)
        run _ <- call (op_DeleteS3BucketObjects fqBucketName) res_error
                  (DeleteS3BucketObjects bucketObjectDeleter fqBucketName) ;;
        ret tt) ;;
      run err <- call (op_DeleteStack (Name (Bucket workflow))) res_error
                  (DeleteStack stackDeleter (Name (Bucket workflow))) ;;
      run _ <- match err with
          | Some (awserr_Error code message) =>
              log Failure (msg_error (Error (awserr_Error code message)))
          | Some (other_error text) =>
              log Failure (msg_error (Error (other_error text)))
          | None => ret tt
          end ;;
      run svcStack <- call (op_AwaitFinalStatus (Name (Bucket workflow)))
                       res_stack
                       (AwaitFinalStatus stackWaiter
                                         (Name (Bucket workflow))) ;;
      run _ <- match svcStack with
          | Some svc =>
              if negb (HasSuffix (Status svc) "_COMPLETE")
              then log Failure
                       (msg_failed_status (Status svc) (StatusReason svc))
              else ret tt
          | None => ret tt
          end ;;
      run _ <- forRange resources (fun resource =>
        let fqBucketName := PhysicalResourceId resource in
        run err2 <- call (op_DeleteS3Bucket fqBucketName) res_error
                     (DeleteS3Bucket (ctx_StackManager ctx) fqBucketName) ;;
        match err2 with
        | Some (awserr_Error code message) =>
            log Failure
                (msg_bucket_not_deleted (Error (awserr_Error code message)))
        | Some (other_error text) =>
            log Failure
                (msg_bucket_not_deleted (Error (other_error text)))
        | None => ret tt
        end) ;;
      ret None
  end.

(** A bucket object deleter whose errors are replaced by success; the
    world moves as with the original. *)
Definition silenced (m : StackManager) : StackManager :=
  {| ListStacks := ListStacks m;
     GetResourcesForStack := GetResourcesForStack m;
     DeleteS3BucketObjects :=
       fun bucketName w => (None, snd (DeleteS3BucketObjects m bucketName w));
     DeleteStack := DeleteStack m;
     AwaitFinalStatus := AwaitFinalStatus m;
     DeleteS3Bucket := DeleteS3Bucket m |}.

(** *** The purge *)

(** The executor behind a step of the plan.  The managers handed to the
    bucket terminator are all [ctx.StackManager], as [purgeWorker] passes
    them.  A step of a sibling workflow is given by its result and what it
    does to the world; the calls it makes on the managers it was handed
    and the lines it logs are not observed. *)
Definition executor (ctx : Context) (s : Step) : Executor :=
  run _ <- emit (Started s) ;;
  match s with
  | bucketTerminate workflow =>
      bucketTerminator workflow ctx
        (ctx_StackManager ctx) (ctx_StackManager ctx) (ctx_StackManager ctx)
        (ctx_StackManager ctx) (ctx_StackManager ctx)
  | _ => fun w => let '(err, w1) := sibling s w in (err, w1, [])
  end.

(** The progress table of [purgeWorker], created from the writer and the
    purge header: one row per stack that carries a [type] tag, then the
    rendering; the value is [stackCount]. *)
Definition purgeTable (stacks : list Stack) : M nat :=
  run stackCount <-
    forRangeAcc stacks (fun stack stackCount =>
      let '(stackType, ok) := index_ok (Tags stack) "type" in
      if ok
      then run _ <- emit (Appended {| row_type := stackType;
                             row_name := Name stack;
                             row_status := Status stack;
                             row_reason := StatusReason stack;
                             row_time := LastUpdateTime stack |}) ;;
           ret (S stackCount)
      else ret stackCount) 0%nat ;;
  run _ <- emit Rendered ;;
  ret stackCount.

(** The master list of [purgeWorker]: the four loops that append to
    [executors]. *)
Definition purgePlan (ctx : Context) (stacks : list Stack) : M (list Step) :=
  let executors : list Step := [] in
  run executors <-
    forRangeAcc (filterStacksByType stacks StackTypeService)
      (fun stack executors =>
         let executors :=
           executors ++ [serviceInput (index (Tags stack) "service")] in
         let executors :=
           executors ++ [serviceUndeployer (ctx_Namespace ctx)
                           (index (Tags stack) "environment")] in
         ret executors) executors ;;
  run executors <-
    forRangeAcc (filterStacksByType stacks StackTypeEnv)
      (fun stack executors =>
         let envName := index (Tags stack) "environment" in
         let executors :=
           executors ++ [environmentServiceTerminator envName] in
         let executors := executors ++ [environmentDbTerminator envName] in
         let executors :=
           executors ++ [environmentEcsTerminator (ctx_Namespace ctx)
                           envName] in
         let executors :=
           executors ++ [environmentConsulTerminator (ctx_Namespace ctx)
                           envName] in
         let executors :=
           executors ++ [environmentRolesetTerminator envName] in
         let executors :=
           executors ++ [environmentElbTerminator (ctx_Namespace ctx)
                           envName] in
         let executors :=
           executors ++ [environmentVpcTerminator (ctx_Namespace ctx)
                           envName] in
         ret executors) executors ;;
  run executors <-
    forRangeAcc (filterStacksByType stacks StackTypePipeline)
      (fun codePipeline executors =>
         let executors :=
           executors ++ [serviceFinder (index (Tags codePipeline)
                                              "service")] in
         let executors :=
           executors ++ [pipelineTerminator (ctx_Namespace ctx)] in
         let executors := executors ++ [pipelineRolesetTerminator] in
         ret executors) executors ;;
  forRangeAcc (filterStacksByType stacks StackTypeBucket)
    (fun bucket executors =>
       run _ <- log Info (msg_bucket_stack (Name bucket) (Tags bucket)) ;;
       let workflow := {| Bucket := bucket |} in
       ret (executors ++ [bucketTerminate workflow])) executors.

Definition purgeWorker (workflow : purgeWorkflow) (ctx : Context)
    (stackLister : StackManager) : Executor :=
  run '(stacks, err) <-
    call (op_ListStacks StackTypeAll)
         (fun r => res_stacks (fst r) (snd r))
         (ListStacks stackLister StackTypeAll) ;;
  run _ <- match err with
      | Some _ => log Warning msg_list_failed
      | None => ret tt
      end ;;
  let stacks := removeStacksByStatus stacks [StackStatusRollbackComplete] in
  run stackCount <- purgeTable stacks ;;
  run executors <- purgePlan ctx stacks ;;
  run _ <- log Info (msg_total stackCount (length executors)) ;;
  (* like newPipelineExecutor, except that it doesn't stop on error *)
  let executor := newPipelineExecutorNoStop (map (executor ctx) executors) in
  (* run everything we've collected *)
  run _ <- executor ;;
  ret None.


(** *** The plan, kind by kind *)

Definition serviceSteps (namespace : string) (stack : Stack) : list Step :=
  [ serviceInput (index (Tags stack) "service");
    serviceUndeployer namespace (index (Tags stack) "environment") ].

Definition environmentSteps (namespace : string) (stack : Stack)
  : list Step :=
  let envName := index (Tags stack) "environment" in
  [ environmentServiceTerminator envName;
    environmentDbTerminator envName;
    environmentEcsTerminator namespace envName;
    environmentConsulTerminator namespace envName;
    environmentRolesetTerminator envName;
    environmentElbTerminator namespace envName;
    environmentVpcTerminator namespace envName ].

Definition pipelineSteps (namespace : string) (stack : Stack) : list Step :=
  [ serviceFinder (index (Tags stack) "service");
    pipelineTerminator namespace;
    pipelineRolesetTerminator ].

Definition bucketSteps (stack : Stack) : list Step :=
  [ bucketTerminate {| Bucket := stack |} ].

(** The plan ordered by stack kind, as the specification describes it. *)
Definition orderedPlan (namespace : string) (stacks : list Stack)
  : list Step :=
  flat_map (serviceSteps namespace)
           (filterStacksByType stacks StackTypeService)
  ++ flat_map (environmentSteps namespace)
              (filterStacksByType stacks StackTypeEnv)
  ++ flat_map (pipelineSteps namespace)
              (filterStacksByType stacks StackTypePipeline)
  ++ flat_map bucketSteps (filterStacksByType stacks StackTypeBucket).

End Workflows.

Arguments M : clear implicits.
Arguments Executor : clear implicits.
Arguments StackManager : clear implicits.
Arguments Context : clear implicits.

(** ** Sample inventories *)

Definition tags (l : list (string * string)) : gmap string string :=
  list_to_map l.

(** A stack that carries no tag at all. *)
Definition untagged : Stack :=
  {| Name := "orphan"; Status := "CREATE_COMPLETE"; StatusReason := "";
     Tags := tags []; LastUpdateTime := 0 |}.

Definition svc_web : Stack :=
  {| Name := "svc-web"; Status := "UPDATE_COMPLETE"; StatusReason := "";
     Tags := tags [("type", "service"); ("service", "web");
                   ("environment", "prod")];
     LastUpdateTime := 0 |}.

Definition old_env : Stack :=
  {| Name := "old-env"; Status := "ROLLBACK_COMPLETE"; StatusReason := "";
     Tags := tags [("type", "environment"); ("environment", "stage")];
     LastUpdateTime := 0 |}.

Definition logs_bucket : Stack :=
  {| Name := "logs-bucket"; Status := "CREATE_COMPLETE"; StatusReason := "";
     Tags := tags [("type", "bucket")]; LastUpdateTime := 0 |}.

Definition delete_failed : Stack :=
  {| Name := "logs-bucket"; Status := "DELETE_FAILED";
     StatusReason := "bucket not empty";
     Tags := tags [("type", "bucket")]; LastUpdateTime := 0 |}.

Definition two_buckets : list Resource :=
  [ {| PhysicalResourceId := "logs-a" |};
    {| PhysicalResourceId := "logs-b" |} ].

(** ** Sample collaborators *)

(** A stack manager that answers every call with a fixed result; its world
    counts the calls made so far. *)
Definition fixedManager (listed : list Stack * option error)
    (resources : list Resource * option error)
    (drained deleted : option error) (final : option Stack)
    (removed : option error) : StackManager nat :=
  {| ListStacks := fun _ w => (listed, S w);
     GetResourcesForStack := fun _ w => (resources, S w);
     DeleteS3BucketObjects := fun _ w => (drained, S w);
     DeleteStack := fun _ w => (deleted, S w);
     AwaitFinalStatus := fun _ w => (final, S w);
     DeleteS3Bucket := fun _ w => (removed, S w) |}.

(** Every drain and the stack deletion fail; the stack ends in
    [DELETE_FAILED]. *)
Definition stubborn : StackManager nat :=
  fixedManager ([logs_bucket], None) (two_buckets, None)
               (Some (other_error "access denied"))
               (Some (awserr_Error "ValidationError" "delete refused"))
               (Some delete_failed) None.

(** The resources of a stack cannot be resolved. *)
Definition unresolved : StackManager nat :=
  fixedManager ([logs_bucket], None)
               ([], Some (other_error "stack not found"))
               None None None None.

(** The inventory cannot be listed. *)
Definition unreachable : StackManager nat :=
  fixedManager ([], Some (other_error "request timed out"))
               ([], None) None None None None.

(** The inventory is one live service stack. *)
Definition web_only : StackManager nat :=
  fixedManager ([svc_web], None) ([], None) None None None None.

(** Sibling executors that all fail. *)
Definition failing (s : Step) (w : nat) : option error * nat :=
  (Some (other_error "step failed"), S w).

Definition mu_context (m : StackManager nat) : Context nat :=
  {| ctx_Namespace := "mu"; ctx_StackManager := m |}.

Definition logs_workflow : bucketTerminateWorkflow :=
  {| Bucket := logs_bucket |}.

(** ** Statuses as the specification words them *)

(** The specification separates completed, rolled-back and failed states of a
    stack, and counts [ROLLBACK_COMPLETE] among the failed ones.  A status
    indicates full success when it is a completed state that is not a
    rolled-back one. *)
Definition IndicatesFullSuccess (status : string) : bool :=
  HasSuffix status "_COMPLETE"
  && negb (HasSuffix status "ROLLBACK_COMPLETE").

(** A stack whose update was rolled back. *)
Definition rolled_back_update : Stack :=
  {| Name := "logs-bucket"; Status := "UPDATE_ROLLBACK_COMPLETE";
     StatusReason := "update cancelled";
     Tags := tags [("type", "bucket")]; LastUpdateTime := 0 |}.


(** The stack deletion is refused and the stack stays as it was, rolled
    back from an update. *)
Definition refused : StackManager nat :=
  fixedManager ([logs_bucket], None) (two_buckets, None) None
               (Some (awserr_Error "AccessDenied" "not allowed"))
               (Some rolled_back_update) None.

(** ** Closed forms of the loops *)

(** The rows the table loop of [purgeWorker] appends: one per stack that
    carries a [type] tag, in inventory order. *)
Definition tableRows (stacks : list Stack) : list Row :=
  omap (fun stack =>
          match Tags stack !! "type" with
          | Some stackType =>
              Some {| row_type := stackType;
                      row_name := Name stack;
                      row_status := Status stack;
                      row_reason := StatusReason stack;
                      row_time := LastUpdateTime stack |}
          | None => None
          end) stacks.

(** The warning of [purgeWorker] for the outcome of [ListStacks]. *)
Definition listWarning (err : option error) : list Obs :=
  match err with
  | Some _ => [Logged Warning msg_list_failed]
  | None => []
  end.

(** The line [purgeWorker] logs for each bucket stack while it builds the
    plan. *)
Definition bucketLines (stacks : list Stack) : list Obs :=
  map (fun bucket => Logged Info (msg_bucket_stack (Name bucket) (Tags bucket)))
      (filterStacksByType stacks StackTypeBucket).

(** The first loop of the bucket terminator, for the resources paired with
    what their drain returned. *)
Definition drained (results : list (Resource * option error)) : list Obs :=
  flat_map (fun re =>
              [ Logged Debug (msg_delete_bucket (PhysicalResourceId re.1));
                Called (op_DeleteS3BucketObjects (PhysicalResourceId re.1))
                       (res_error re.2) ])
           results.

(** The line logged for the outcome of one [DeleteS3Bucket]. *)
Definition bucketDeleteLog (err2 : option error) : list Obs :=
  match err2 with
  | Some e => [Logged Failure (msg_bucket_not_deleted (Error e))]
  | None => []
  end.

(** The last loop of the bucket terminator, for the resources paired with
    what their deletion returned. *)
Definition removed (results : list (Resource * option error)) : list Obs :=
  flat_map (fun re =>
              Called (op_DeleteS3Bucket (PhysicalResourceId re.1))
                     (res_error re.2)
              :: bucketDeleteLog re.2)
           results.

(** The texts of the lines logged for failed bucket deletions, and the
    texts of the errors the bucket deletions returned. *)
Definition deletionLines (lines : list (Level * Message)) : list string :=
  omap (fun l => match l with
                 | (_, msg_bucket_not_deleted text) => Some text
                 | _ => None
                 end) lines.

Definition failedDeletions (out : list Obs) : list string :=
  omap (fun o => match o with
                 | Called (op_DeleteS3Bucket _) (res_error (Some e)) =>
                     Some (Error e)
                 | _ => None
                 end) out.

Definition is_failure (l : Level * Message) : bool :=
  match l with
  | (Failure, _) => true
  | _ => false
  end.

Definition is_listing (op : Op) : bool :=
  match op with op_ListStacks _ => true | _ => false end.

Definition is_resolution (op : Op) : bool :=
  match op with op_GetResourcesForStack _ => true | _ => false end.

(** The kinds of stack for which [purgeWorker] plans steps. *)
Definition wired (stackType : string) : bool :=
  String.eqb stackType StackTypeService
  || String.eqb stackType StackTypeEnv
  || String.eqb stackType StackTypePipeline
  || String.eqb stackType StackTypeBucket.

(** The resource resolution a step of the plan starts with, if any. *)
Definition resolutionOf (s : Step) : list Op :=
  match s with
  | bucketTerminate workflow => [op_GetResourcesForStack (Bucket workflow)]
  | _ => []
  end.

(** The observations the bucket terminator answers with an error line: a
    failed stack deletion, a failed bucket deletion, a final status that does
    not end in [_COMPLETE]. *)
Definition reported (o : Obs) : bool :=
  match o with
  | Called (op_DeleteStack _) (res_error (Some _)) => true
  | Called (op_DeleteS3Bucket _) (res_error (Some _)) => true
  | Called (op_AwaitFinalStatus _) (res_stack (Some svc)) =>
      negb (HasSuffix (Status svc) "_COMPLETE")
  | _ => false
  end.

(** An environment stack that carries no [environment] tag. *)
Definition nameless_env : Stack :=
  {| Name := "env"; Status := "CREATE_COMPLETE"; StatusReason := "";
     Tags := list_to_map [("type", "environment")]; LastUpdateTime := 0 |}.

(** A stack of a kind the purge plans nothing for. *)
Definition some_vpc : Stack :=
  {| Name := "vpc"; Status := "CREATE_COMPLETE"; StatusReason := "";
     Tags := list_to_map [("type", "vpc")]; LastUpdateTime := 0 |}.

(** The inventory is one rolled back environment stack. *)
Definition rolled_back_only : StackManager nat :=
  fixedManager ([old_env], None) ([], None) None None None None.

(** Everything succeeds but the removal of the buckets. *)
Definition clingy : StackManager nat :=
  fixedManager ([logs_bucket], None) (two_buckets, None) None None None
               (Some (awserr_Error "BucketNotEmpty" "bucket is not empty")).

(** ** Loops that append under a condition *)

Section AppendLoop.
Context {A : Type}.
Variable keep : A -> bool.

Lemma append_loop_acc (l acc : list A) :
  fold_left (fun ret x => if keep x then ret ++ [x] else ret) l acc
  = acc ++ List.filter keep l.
Proof.
  revert acc; induction l as [|x l IH]; intros acc; simpl.
  - now rewrite app_nil_r.
  - rewrite IH. destruct (keep x); simpl.
    + now rewrite <- app_assoc.
    + reflexivity.
Qed.

Lemma append_loop (l : list A) :
  fold_left (fun ret x => if keep x then ret ++ [x] else ret) l []
  = List.filter keep l.
Proof. apply append_loop_acc. Qed.
End AppendLoop.

Lemma filter_ext_bool {A} (f g : A -> bool) (l : list A) :
  (forall x, f x = g x) -> List.filter f l = List.filter g l.
Proof.
  intros E; induction l as [|x l IH]; simpl; [reflexivity|].
  now rewrite E, IH.
Qed.

Lemma filter_sublist {A} (f : A -> bool) (l : list A) :
  sublist (List.filter f l) l.
Proof.
  induction l as [|x l IH]; simpl.
  - constructor.
  - destruct (f x); now constructor.
Qed.

(** The inner loop of [removeStacksByStatus] computes membership. *)
Lemma found_loop (st : string) (statuses : list string) (b : bool) :
  fold_left (fun found status => if String.eqb st status then true else found)
            statuses b
  = b || bool_decide (st ∈ statuses).
Proof.
  revert b; induction statuses as [|x l IH]; intros b; cbn [fold_left].
  - rewrite bool_decide_eq_false_2; [now rewrite orb_false_r|].
    apply not_elem_of_nil.
  - rewrite IH. destruct (String.eqb_spec st x) as [->|Hne].
    + rewrite (bool_decide_eq_true_2 (x ∈ x :: l)) by apply list_elem_of_here.
      now rewrite orb_true_r.
    + f_equal. apply bool_decide_ext. rewrite elem_of_cons. tauto.
Qed.

Lemma fold_left_ext {A B} (f g : A -> B -> A) (l : list B) (a : A) :
  (forall a b, f a b = g a b) -> fold_left f l a = fold_left g l a.
Proof.
  intros E; revert a; induction l as [|x l IH]; intros a; simpl;
    [reflexivity|].
  now rewrite E, IH.
Qed.

Lemma removeStacksByStatus_filter (stacks : list Stack) (statuses : list string) :
  removeStacksByStatus stacks statuses = ExcludeByStatus stacks statuses.
Proof.
  unfold removeStacksByStatus, ExcludeByStatus.
  rewrite <- (append_loop (fun s => negb (bool_decide (Status s ∈ statuses)))).
  apply fold_left_ext; intros ret stack.
  now rewrite found_loop.
Qed.

Lemma filterStacksByType_index (stacks : list Stack) (stackType : StackType) :
  filterStacksByType stacks stackType
  = List.filter (fun s => String.eqb (index (Tags s) "type") stackType) stacks.
Proof. unfold filterStacksByType. apply append_loop. Qed.

Lemma elem_of_bool_filter {A} (f : A -> bool) (l : list A) (x : A) :
  x ∈ List.filter f l <-> x ∈ l /\ f x = true.
Proof. rewrite !list_elem_of_In. apply filter_In. Qed.

(** ** The stack inventory filters *)

(** C5. [removeStacksByStatus] returns exactly the stacks whose status is not
    in the exclusion list, in their original relative order, and with an
    empty exclusion list it returns the stacks unchanged. *)
Theorem removeStacksByStatus_exact (S : list Stack) (E : list string) :
  removeStacksByStatus S E = ExcludeByStatus S E
  /\ (forall s, s ∈ removeStacksByStatus S E <-> s ∈ S /\ Status s ∉ E)
  /\ sublist (removeStacksByStatus S E) S
  /\ removeStacksByStatus S [] = S.
Proof.
  split; [apply removeStacksByStatus_filter|].
  split; [|split].
  - intros s. rewrite removeStacksByStatus_filter. unfold ExcludeByStatus.
    rewrite elem_of_bool_filter, negb_true_iff, bool_decide_eq_false.
    reflexivity.
  - rewrite removeStacksByStatus_filter. apply filter_sublist.
  - rewrite removeStacksByStatus_filter. unfold ExcludeByStatus.
    induction S as [|s S IH]; cbn [List.filter]; [reflexivity|].
    rewrite (bool_decide_eq_false_2 (Status s ∈ [])) by apply not_elem_of_nil.
    cbn [negb]. now rewrite IH.
Qed.

(** With a non-empty type the lookup with default and the presence of the
    tag agree. *)
Lemma index_type_eqb (s : Stack) (T : StackType) :
  T <> "" ->
  String.eqb (index (Tags s) "type") T
  = bool_decide (Tags s !! "type" = Some T).
Proof.
  intros HT. unfold index.
  destruct (Tags s !! "type") as [v|]; cbn [default from_option id].
  - destruct (String.eqb_spec v T) as [->|Hne]; symmetry.
    + now apply bool_decide_eq_true_2.
    + apply bool_decide_eq_false_2. congruence.
  - destruct (String.eqb_spec "" T) as [<-|Hne]; [congruence|]; symmetry.
    now apply bool_decide_eq_false_2.
Qed.

(** C4, as the code has it.  For a non-empty type [T], [filterStacksByType]
    returns exactly the stacks whose [type] tag equals [T], in their original
    relative order, and never a stack without a [type] tag; for the empty
    type it returns the stacks whose [type] tag is missing or empty. *)
Theorem filterStacksByType_exact (S : list Stack) (T : StackType) :
  T <> "" ->
  filterStacksByType S T = SelectByType S T
  /\ (forall s, s ∈ filterStacksByType S T
                <-> s ∈ S /\ Tags s !! "type" = Some T)
  /\ sublist (filterStacksByType S T) S
  /\ (forall s, Tags s !! "type" = None -> s ∉ filterStacksByType S T)
  /\ filterStacksByType S ""
     = List.filter (fun s => bool_decide (Tags s !! "type" = None
                                          \/ Tags s !! "type" = Some "")) S.
Proof.
  intros HT.
  assert (Heq : filterStacksByType S T = SelectByType S T).
  { rewrite filterStacksByType_index. unfold SelectByType.
    apply filter_ext_bool. intros s. now apply index_type_eqb. }
  assert (Hin : forall s, s ∈ filterStacksByType S T
                          <-> s ∈ S /\ Tags s !! "type" = Some T).
  { intros s. rewrite Heq. unfold SelectByType.
    now rewrite elem_of_bool_filter, bool_decide_eq_true. }
  split; [exact Heq|]. split; [exact Hin|]. split; [|split].
  - rewrite Heq. apply filter_sublist.
  - intros s Hnone Hs. apply Hin in Hs as [_ Hs].
    rewrite Hnone in Hs. discriminate Hs.
  - rewrite filterStacksByType_index. apply filter_ext_bool. intros s.
    unfold index.
    destruct (Tags s !! "type") as [v|]; cbn [default from_option id].
    + destruct (String.eqb_spec v "") as [->|Hne]; symmetry.
      * apply bool_decide_eq_true_2; auto.
      * apply bool_decide_eq_false_2. intros [?|?]; congruence.
    + symmetry. apply bool_decide_eq_true_2; auto.
Qed.

Lemma filterStacksByType_exact_witness :
  filterStacksByType [svc_web; untagged; logs_bucket] "service" = [svc_web]
  /\ untagged ∉ filterStacksByType [svc_web; untagged; logs_bucket] "service".
Proof.
  destruct (filterStacksByType_exact [svc_web; untagged; logs_bucket]
              "service") as (H1 & _ & _ & H4 & _).
  - discriminate.
  - split.
    + rewrite H1. vm_compute. reflexivity.
    + apply H4. vm_compute. reflexivity.
Defined.

(** C4, as the specification states it, fails at the empty type: a stack
    without a [type] tag is selected, while no [type] tag equals the
    requested value. *)
Lemma filterStacksByType_selects_untagged :
  Tags untagged !! "type" = None
  /\ untagged ∈ filterStacksByType [untagged] ""
  /\ filterStacksByType [untagged] "" <> SelectByType [untagged] "".
Proof.
  split; [vm_compute; reflexivity|].
  split; [|vm_compute; discriminate].
  replace (filterStacksByType [untagged] "") with [untagged]
    by (vm_compute; reflexivity).
  apply list_elem_of_here.
Qed.

(** ** The suffix test on stack statuses *)

Lemma substring_whole (s : string) : substring 0 (String.length s) s = s.
Proof.
  induction s as [|c t IH]; cbn [String.length substring];
    [reflexivity|now rewrite IH].
Qed.

Lemma substring_app_suffix (p suffix : string) :
  substring (String.length p) (String.length suffix) (p ++ suffix) = suffix.
Proof.
  induction p as [|c p IH]; cbn [String.length String.append substring].
  - apply substring_whole.
  - exact IH.
Qed.

Lemma length_string_app (p q : string) :
  String.length (p ++ q) = String.length p + String.length q.
Proof.
  induction p as [|c p IH]; simpl; [reflexivity|].
  f_equal. exact IH.
Qed.

(** Every string that ends with the suffix passes the test. *)
Lemma HasSuffix_app (p suffix : string) : HasSuffix (p ++ suffix) suffix = true.
Proof.
  unfold HasSuffix. rewrite length_string_app.
  replace (String.length p + String.length suffix - String.length suffix)
    with (String.length p) by lia.
  rewrite substring_app_suffix, String.eqb_refl, andb_true_r.
  apply Nat.leb_le. lia.
Qed.

Example delete_complete_is_complete :
  HasSuffix "DELETE_COMPLETE" "_COMPLETE" = true.
Proof. reflexivity. Qed.

Example rollback_complete_is_complete :
  HasSuffix "ROLLBACK_COMPLETE" "_COMPLETE" = true.
Proof. reflexivity. Qed.

Example delete_failed_is_not_complete :
  HasSuffix "DELETE_FAILED" "_COMPLETE" = false.
Proof. reflexivity. Qed.

Example short_status_is_not_complete : HasSuffix "OK" "_COMPLETE" = false.
Proof. reflexivity. Qed.

(** A rolled back stack is dropped before classification. *)
Example rolled_back_stack_excluded :
  removeStacksByStatus [old_env; svc_web] [StackStatusRollbackComplete]
  = [svc_web].
Proof. reflexivity. Qed.

(** ** Computations and their timelines *)

Lemma ops_app (a b : list Obs) : ops (a ++ b) = ops a ++ ops b.
Proof. apply omap_app. Qed.

Lemma logged_app (a b : list Obs) : logged (a ++ b) = logged a ++ logged b.
Proof. apply omap_app. Qed.

Lemma started_app (a b : list Obs) : started (a ++ b) = started a ++ started b.
Proof. apply omap_app. Qed.

Section Timelines.
Context {World : Type}.

Lemma run_bind {A B} (c : M World A) (k : A -> M World B) (w : World) :
  bind c k w
  = (value (k (value c w)) (after c w),
     after (k (value c w)) (after c w),
     output c w ++ output (k (value c w)) (after c w)).
Proof.
  unfold bind, value, after, output.
  destruct (c w) as [[a w1] out1]; simpl.
  destruct (k a w1) as [[b w2] out2]; reflexivity.
Qed.

Lemma value_bind {A B} (c : M World A) (k : A -> M World B) w :
  value (bind c k) w = value (k (value c w)) (after c w).
Proof. unfold value at 1. now rewrite run_bind. Qed.

Lemma after_bind {A B} (c : M World A) (k : A -> M World B) w :
  after (bind c k) w = after (k (value c w)) (after c w).
Proof. unfold after at 1. now rewrite run_bind. Qed.

Lemma output_bind {A B} (c : M World A) (k : A -> M World B) w :
  output (bind c k) w = output c w ++ output (k (value c w)) (after c w).
Proof. unfold output at 1. now rewrite run_bind. Qed.

Lemma run_eta {A} (c : M World A) w : c w = (value c w, after c w, output c w).
Proof. unfold value, after, output. now destruct (c w) as [[a w1] o]. Qed.

Lemma value_call {A} op (res : A -> Result) f (w : World) :
  value (call op res f) w = fst (f w).
Proof. unfold value, call. now destruct (f w). Qed.

Lemma after_call {A} op (res : A -> Result) f (w : World) :
  after (call op res f) w = snd (f w).
Proof. unfold after, call. now destruct (f w). Qed.

Lemma output_call {A} op (res : A -> Result) f (w : World) :
  output (call op res f) w = [Called op (res (fst (f w)))].
Proof. unfold output, call. now destruct (f w). Qed.

Lemma value_ret {A} (a : A) (w : World) : value (ret a) w = a.
Proof. reflexivity. Qed.

Lemma after_ret {A} (a : A) (w : World) : after (ret a) w = w.
Proof. reflexivity. Qed.

Lemma output_ret {A} (a : A) (w : World) : output (ret a) w = [].
Proof. reflexivity. Qed.

Lemma after_emit o (w : World) : after (emit o) w = w.
Proof. reflexivity. Qed.

Lemma output_emit o (w : World) : output (emit o) w = [o].
Proof. reflexivity. Qed.

Lemma after_log lvl msg (w : World) : after (log lvl msg) w = w.
Proof. reflexivity. Qed.

Lemma output_log lvl msg (w : World) :
  output (log lvl msg) w = [Logged lvl msg].
Proof. reflexivity. Qed.

(** A loop emits what its bodies emit. *)
Lemma forRange_Forall {A} (P : Obs -> Prop) (l : list A)
      (body : A -> M World unit) :
  (forall x w, Forall P (output (body x) w)) ->
  forall w, Forall P (output (forRange l body) w).
Proof.
  intros Hbody. induction l as [|x l IH]; intros w; cbn [forRange].
  - constructor.
  - rewrite output_bind. apply Forall_app. split; [apply Hbody|apply IH].
Qed.

Lemma forRange_ops {A} (f : A -> list Op) (l : list A)
      (body : A -> M World unit) :
  (forall x w, ops (output (body x) w) = f x) ->
  forall w, ops (output (forRange l body) w) = flat_map f l.
Proof.
  intros Hbody. induction l as [|x l IH]; intros w; cbn [forRange flat_map].
  - reflexivity.
  - now rewrite output_bind, ops_app, Hbody, IH.
Qed.

(** A loop whose body appends to the accumulator and leaves the world
    alone. *)
Lemma forRangeAcc_append {A X} (g : A -> list X) (pre : A -> list Obs)
      (l : list A) (body : A -> list X -> M World (list X)) :
  (forall x acc w, body x acc w = (acc ++ g x, w, pre x)) ->
  forall acc w,
    forRangeAcc l body acc w = (acc ++ flat_map g l, w, flat_map pre l).
Proof.
  intros Hbody. induction l as [|x l IH]; intros acc w;
    cbn [forRangeAcc flat_map].
  - unfold ret. now rewrite app_nil_r.
  - rewrite run_bind. unfold value, after, output.
    rewrite Hbody. cbn [fst snd]. rewrite IH. cbn [fst snd].
    now rewrite <- app_assoc.
Qed.
End Timelines.

Ltac run_simpl :=
  repeat (rewrite ?value_bind, ?after_bind, ?output_bind,
                  ?value_call, ?after_call, ?output_call,
                  ?value_ret, ?after_ret, ?output_ret,
                  ?after_emit, ?output_emit, ?after_log, ?output_log;
          cbn [fst snd]).

(** ** The bucket termination workflow *)

Section BucketTermination.
Context {World : Type}.
Variables (workflow : bucketTerminateWorkflow) (ctx : Context World).
Variables bucketDeleter bucketObjectDeleter stackDeleter stackLister
          stackWaiter : StackManager World.

Lemma bucketTerminator_failed (w w1 : World) resources e :
  GetResourcesForStack stackLister (Bucket workflow) w
  = ((resources, Some e), w1) ->
  bucketTerminator workflow ctx bucketDeleter bucketObjectDeleter
                   stackDeleter stackLister stackWaiter w
  = (Some e, w1,
     [Called (op_GetResourcesForStack (Bucket workflow))
             (res_resources resources (Some e));
      Logged Info (msg_resources resources)]).
Proof.
  intros H. rewrite run_eta. unfold bucketTerminator.
  run_simpl. rewrite H. run_simpl. reflexivity.
Qed.

(** The first loop: one debug line and one drain per resource. *)
Lemma drain_loop (m : StackManager World) (resources : list Resource)
      (w : World) :
  let loop :=
    forRange resources (fun resource =>
      bind (log Debug (msg_delete_bucket (PhysicalResourceId resource)))
           (fun _ =>
              bind (call (op_DeleteS3BucketObjects
                            (PhysicalResourceId resource)) res_error
                         (DeleteS3BucketObjects m
                            (PhysicalResourceId resource)))
                   (fun _ => ret tt))) in
  Forall (fun o => drain_obs o = true) (output loop w)
  /\ ops (output loop w)
     = map op_DeleteS3BucketObjects (map PhysicalResourceId resources).
Proof.
  cbv zeta. split.
  - apply forRange_Forall. intros x w0. run_simpl.
    repeat constructor.
  - rewrite (forRange_ops (fun r => [op_DeleteS3BucketObjects
                                       (PhysicalResourceId r)])).
    + induction resources as [|r l IH]; simpl; [reflexivity|].
      now rewrite IH.
    + intros x w0. run_simpl. reflexivity.
Qed.

(** The last loop: one bucket deletion per resource, and a line for each
    failure. *)
Lemma delete_loop (m : StackManager World) (resources : list Resource)
      (w : World) :
  let loop :=
    forRange resources (fun resource =>
      bind (call (op_DeleteS3Bucket (PhysicalResourceId resource)) res_error
                 (DeleteS3Bucket m (PhysicalResourceId resource)))
           (fun err2 =>
              match err2 with
              | Some (awserr_Error code message) =>
                  log Failure
                      (msg_bucket_not_deleted
                         (Error (awserr_Error code message)))
              | Some (other_error text) =>
                  log Failure
                      (msg_bucket_not_deleted (Error (other_error text)))
              | None => ret tt
              end)) in
  Forall (fun o => delete_obs o = true) (output loop w)
  /\ ops (output loop w)
     = map op_DeleteS3Bucket (map PhysicalResourceId resources).
Proof.
  cbv zeta. split.
  - apply forRange_Forall. intros x w0. run_simpl.
    destruct (DeleteS3Bucket m (PhysicalResourceId x) w0) as [[[c t|t]|] w1];
      cbn [fst snd]; run_simpl; repeat constructor.
  - rewrite (forRange_ops (fun r => [op_DeleteS3Bucket
                                       (PhysicalResourceId r)])).
    + induction resources as [|r l IH]; simpl; [reflexivity|].
      now rewrite IH.
    + intros x w0. run_simpl.
      destruct (DeleteS3Bucket m (PhysicalResourceId x) w0)
        as [[[c t|t]|] w1]; cbn [fst snd]; run_simpl; reflexivity.
Qed.

Lemma bucketTerminator_timeline (w w1 : World) resources :
  GetResourcesForStack stackLister (Bucket workflow) w
  = ((resources, None), w1) ->
  exists out_drain err svcStack out_delete,
    output (bucketTerminator workflow ctx bucketDeleter bucketObjectDeleter
                             stackDeleter stackLister stackWaiter) w
    = Called (op_GetResourcesForStack (Bucket workflow))
             (res_resources resources None)
      :: Logged Info (msg_resources resources)
      :: out_drain
      ++ Called (op_DeleteStack (Name (Bucket workflow))) (res_error err)
      :: deleteStackLog err
      ++ Called (op_AwaitFinalStatus (Name (Bucket workflow)))
                (res_stack svcStack)
      :: finalStatusLog svcStack
      ++ out_delete
    /\ Forall (fun o => drain_obs o = true) out_drain
    /\ ops out_drain
       = map op_DeleteS3BucketObjects (map PhysicalResourceId resources)
    /\ Forall (fun o => delete_obs o = true) out_delete
    /\ ops out_delete
       = map op_DeleteS3Bucket (map PhysicalResourceId resources)
    /\ value (bucketTerminator workflow ctx bucketDeleter
                bucketObjectDeleter stackDeleter stackLister stackWaiter) w
       = None.
Proof.
  intros H. unfold bucketTerminator.
  run_simpl. rewrite H. run_simpl.
  match goal with
  | |- context [after (forRange resources ?b) w1] =>
      destruct (drain_loop bucketObjectDeleter resources w1) as [Hd1 Hd2];
      cbv zeta in Hd1, Hd2;
      revert Hd1 Hd2;
      generalize (output (forRange resources b) w1);
      generalize (after (forRange resources b) w1)
  end.
  intros w2 out_drain Hd1 Hd2.
  destruct (DeleteStack stackDeleter (Name (Bucket workflow)) w2)
    as [err w3]; cbn [fst snd].
  exists out_drain, err.
  assert (Hlog : forall w0,
    @after World unit (match err with
           | Some (awserr_Error code message) =>
               log Failure (msg_error (Error (awserr_Error code message)))
           | Some (other_error text) =>
               log Failure (msg_error (Error (other_error text)))
           | None => ret tt
           end) w0 = w0
    /\ @output World unit (match err with
           | Some (awserr_Error code message) =>
               log Failure (msg_error (Error (awserr_Error code message)))
           | Some (other_error text) =>
               log Failure (msg_error (Error (other_error text)))
           | None => ret tt
           end) w0 = deleteStackLog err).
  { intros w0. destruct err as [[c t|t]|]; split; reflexivity. }
  destruct (Hlog w3) as [-> ->]. clear Hlog.
  destruct (AwaitFinalStatus stackWaiter (Name (Bucket workflow)) w3)
    as [svcStack w4]; cbn [fst snd].
  exists svcStack.
  assert (Hfin : forall w0,
    @after World unit (match svcStack with
           | Some svc =>
               if negb (HasSuffix (Status svc) "_COMPLETE")
               then log Failure
                        (msg_failed_status (Status svc) (StatusReason svc))
               else ret tt
           | None => ret tt
           end) w0 = w0
    /\ @output World unit (match svcStack with
           | Some svc =>
               if negb (HasSuffix (Status svc) "_COMPLETE")
               then log Failure
                        (msg_failed_status (Status svc) (StatusReason svc))
               else ret tt
           | None => ret tt
           end) w0 = finalStatusLog svcStack).
  { intros w0. unfold finalStatusLog.
    destruct svcStack as [svc|]; [|split; reflexivity].
    destruct (HasSuffix (Status svc) "_COMPLETE"); split; reflexivity. }
  destruct (Hfin w4) as [-> ->]. clear Hfin.
  destruct (delete_loop (ctx_StackManager ctx) resources w4) as [He1 He2].
  cbv zeta in He1, He2.
  eexists. split; [|repeat split; eassumption].
  cbn [app]. rewrite app_nil_r. reflexivity.
Qed.

Lemma ops_called op res (out : list Obs) :
  ops (Called op res :: out) = op :: ops out.
Proof. reflexivity. Qed.

Lemma ops_logged lvl msg (out : list Obs) :
  ops (Logged lvl msg :: out) = ops out.
Proof. reflexivity. Qed.

Lemma ops_deleteStackLog err : ops (deleteStackLog err) = [].
Proof. now destruct err. Qed.

Lemma ops_finalStatusLog svcStack : ops (finalStatusLog svcStack) = [].
Proof.
  destruct svcStack as [svc|]; [|reflexivity]. unfold finalStatusLog.
  now destruct (HasSuffix (Status svc) "_COMPLETE").
Qed.

(** The collaborator calls of a run that resolved its resources. *)
Lemma bucketTerminator_ops (w w1 : World) resources :
  GetResourcesForStack stackLister (Bucket workflow) w
  = ((resources, None), w1) ->
  ops (output (bucketTerminator workflow ctx bucketDeleter
                 bucketObjectDeleter stackDeleter stackLister stackWaiter) w)
  = op_GetResourcesForStack (Bucket workflow)
    :: map op_DeleteS3BucketObjects (map PhysicalResourceId resources)
    ++ op_DeleteStack (Name (Bucket workflow))
    :: op_AwaitFinalStatus (Name (Bucket workflow))
    :: map op_DeleteS3Bucket (map PhysicalResourceId resources).
Proof.
  intros H.
  destruct (bucketTerminator_timeline w w1 resources H)
    as (out_drain & err & svcStack & out_delete
        & -> & _ & Hdrain & _ & Hdelete & _).
  rewrite ops_called, ops_logged, ops_app, ops_called, ops_app, ops_called,
          ops_app, ops_deleteStackLog, ops_finalStatusLog, Hdrain, Hdelete.
  reflexivity.
Qed.





Lemma started_drain_obs (out : list Obs) :
  Forall (fun o => drain_obs o = true) out -> started out = [].
Proof.
  induction 1 as [|o l Ho _ IH]; [reflexivity|].
  destruct o; try discriminate Ho; exact IH.
Qed.

Lemma started_delete_obs (out : list Obs) :
  Forall (fun o => delete_obs o = true) out -> started out = [].
Proof.
  induction 1 as [|o l Ho _ IH]; [reflexivity|].
  destruct o; try discriminate Ho; exact IH.
Qed.

Lemma started_called op res (out : list Obs) :
  started (Called op res :: out) = started out.
Proof. reflexivity. Qed.

Lemma started_logged lvl msg (out : list Obs) :
  started (Logged lvl msg :: out) = started out.
Proof. reflexivity. Qed.

Lemma started_deleteStackLog err : started (deleteStackLog err) = [].
Proof. now destruct err. Qed.

Lemma started_finalStatusLog svcStack :
  started (finalStatusLog svcStack) = [].
Proof.
  destruct svcStack as [svc|]; [|reflexivity]. unfold finalStatusLog.
  now destruct (HasSuffix (Status svc) "_COMPLETE").
Qed.

(** The workflow enters no executor of its own. *)
Lemma bucketTerminator_started (w : World) :
  started (output (bucketTerminator workflow ctx bucketDeleter
                     bucketObjectDeleter stackDeleter stackLister
                     stackWaiter) w) = [].
Proof.
  destruct (GetResourcesForStack stackLister (Bucket workflow) w)
    as [[rs [e|]] w1] eqn:H.
  - unfold output. now rewrite (bucketTerminator_failed w w1 rs e H).
  - destruct (bucketTerminator_timeline w w1 rs H)
      as (out_drain & err & svcStack & out_delete
          & -> & Hdrain & _ & Hdelete & _).
    rewrite started_called, started_logged, started_app,
            (started_drain_obs _ Hdrain), started_called, started_app,
            started_deleteStackLog, started_called, started_app,
            started_finalStatusLog, (started_delete_obs _ Hdelete).
    reflexivity.
Qed.


Lemma Forall_elem_of {A} (P : A -> Prop) (l : list A) (x : A) :
  Forall P l -> x ∈ l -> P x.
Proof. intros H Hx. induction H; inversion Hx; subst; auto. Qed.

Lemma timeline_elem (o a b c d : Obs) (od dl fl odl : list Obs) :
  o ∈ a :: b :: od ++ c :: dl ++ d :: fl ++ odl
  <-> o = a \/ o = b \/ o ∈ od \/ o = c \/ o ∈ dl \/ o = d
      \/ o ∈ fl \/ o ∈ odl.
Proof.
  rewrite elem_of_cons, elem_of_cons, elem_of_app, elem_of_cons,
          elem_of_app, elem_of_cons, elem_of_app.
  tauto.
Qed.

Lemma not_await_deleteStackLog err name res :
  Called (op_AwaitFinalStatus name) res ∈ deleteStackLog err -> False.
Proof.
  destruct err; cbn [deleteStackLog]; intros H.
  - apply list_elem_of_singleton in H. discriminate H.
  - now apply elem_of_nil in H.
Qed.

Lemma not_await_finalStatusLog svcStack name res :
  Called (op_AwaitFinalStatus name) res ∈ finalStatusLog svcStack -> False.
Proof.
  unfold finalStatusLog. destruct svcStack as [s|]; intros H.
  - destruct (HasSuffix (Status s) "_COMPLETE").
    + now apply elem_of_nil in H.
    + apply list_elem_of_singleton in H. discriminate H.
  - now apply elem_of_nil in H.
Qed.

Lemma elem_of_logged lvl msg (out : list Obs) :
  (lvl, msg) ∈ logged out <-> Logged lvl msg ∈ out.
Proof.
  unfold logged. rewrite list_elem_of_omap. split.
  - intros (o & Ho & E). destruct o; try discriminate E.
    now injection E as -> ->.
  - intros Ho. now exists (Logged lvl msg).
Qed.

(** The line for the final status, by the suffix test of the code. *)
Lemma failed_status_line (w w1 : World) resources :
  GetResourcesForStack stackLister (Bucket workflow) w
  = ((resources, None), w1) ->
  let run := bucketTerminator workflow ctx bucketDeleter bucketObjectDeleter
                              stackDeleter stackLister stackWaiter in
  (forall svc,
      Called (op_AwaitFinalStatus (Name (Bucket workflow)))
             (res_stack (Some svc)) ∈ output run w ->
      HasSuffix (Status svc) "_COMPLETE" = false ->
      (Failure, msg_failed_status (Status svc) (StatusReason svc))
        ∈ logged (output run w))
  /\ (forall lvl status reason,
         (lvl, msg_failed_status status reason) ∈ logged (output run w) ->
         exists svc,
           Called (op_AwaitFinalStatus (Name (Bucket workflow)))
                  (res_stack (Some svc)) ∈ output run w
           /\ status = Status svc /\ reason = StatusReason svc
           /\ HasSuffix (Status svc) "_COMPLETE" = false)
  /\ value run w = None
  /\ exists before,
       ops (output run w)
       = before ++ op_AwaitFinalStatus (Name (Bucket workflow))
           :: map op_DeleteS3Bucket (map PhysicalResourceId resources).
Proof.
  intros H run. subst run.
  pose proof (bucketTerminator_ops w w1 resources H) as Hops.
  destruct (bucketTerminator_timeline w w1 resources H)
    as (out_drain & err & svcStack & out_delete
        & Hout & Hdrain & _ & Hdelete & _ & Hval).
  rewrite Hout in *. clear Hout.
  split; [|split; [|split]].
  - intros svc Hin Hsuffix. apply elem_of_logged.
    apply timeline_elem in Hin. apply timeline_elem.
    assert (svcStack = Some svc) as ->.
    { destruct Hin as [Hin|[Hin|[Hin|[Hin|[Hin|[Hin|[Hin|Hin]]]]]]];
        try discriminate Hin.
      - eapply Forall_elem_of in Hin; [|exact Hdrain].
        discriminate Hin.
      - apply not_await_deleteStackLog in Hin. destruct Hin.
      - now injection Hin as ->.
      - apply not_await_finalStatusLog in Hin. destruct Hin.
      - eapply Forall_elem_of in Hin; [|exact Hdelete].
        discriminate Hin. }
    do 6 right. left.
    unfold finalStatusLog. rewrite Hsuffix. apply list_elem_of_here.
  - intros lvl status reason Hin. apply elem_of_logged in Hin.
    apply timeline_elem in Hin.
    destruct Hin as [Hin|[Hin|[Hin|[Hin|[Hin|[Hin|[Hin|Hin]]]]]]];
      try discriminate Hin.
    + eapply Forall_elem_of in Hin; [|exact Hdrain].
      now destruct lvl.
    + destruct err; [apply list_elem_of_singleton in Hin
                    |apply elem_of_nil in Hin; destruct Hin].
      discriminate Hin.
    + destruct svcStack as [s|]; [|now apply elem_of_nil in Hin].
      unfold finalStatusLog in Hin.
      destruct (HasSuffix (Status s) "_COMPLETE") eqn:E;
        [now apply elem_of_nil in Hin|].
      apply list_elem_of_singleton in Hin. injection Hin as -> -> ->.
      exists s. repeat split; try assumption.
      apply timeline_elem. do 5 right. now left.
    + eapply Forall_elem_of in Hin; [|exact Hdelete].
      now destruct lvl.
  - exact Hval.
  - exists (op_GetResourcesForStack (Bucket workflow)
            :: map op_DeleteS3BucketObjects
                 (map PhysicalResourceId resources)
            ++ [op_DeleteStack (Name (Bucket workflow))]).
    rewrite Hops. cbn [app]. now rewrite <- app_assoc.
Qed.

(** Silencing the object deleter changes neither the world a drain leaves
    behind, nor the calls, nor the log. *)
Lemma drain_loop_silenced (m : StackManager World) (resources : list Resource)
      (w : World) :
  let loop (m : StackManager World) :=
    forRange resources (fun resource =>
      bind (log Debug (msg_delete_bucket (PhysicalResourceId resource)))
           (fun _ =>
              bind (call (op_DeleteS3BucketObjects
                            (PhysicalResourceId resource)) res_error
                         (DeleteS3BucketObjects m
                            (PhysicalResourceId resource)))
                   (fun _ => ret tt))) in
  after (loop m) w = after (loop (silenced m)) w
  /\ logged (output (loop m) w) = logged (output (loop (silenced m)) w)
  /\ ops (output (loop m) w) = ops (output (loop (silenced m)) w).
Proof.
  cbv zeta. revert w.
  induction resources as [|r l IH]; intros w; cbn [forRange].
  - repeat split.
  - run_simpl. cbn [silenced DeleteS3BucketObjects snd].
    destruct (IH (DeleteS3BucketObjects m (PhysicalResourceId r) w).2)
      as (IH1 & IH2 & IH3).
    rewrite !logged_app, !ops_app, IH1, IH2, IH3. repeat split.
Qed.

(** C9. The error of a drain is dropped: when the resources resolve, the
    run with the given object deleter and the run with its errors replaced
    by success return the same value, leave the same world, log the same
    lines and make the same calls, namely every drain, then the stack
    deletion, the await and every bucket deletion. *)
Theorem drain_errors_discarded (w w1 : World) resources :
  GetResourcesForStack stackLister (Bucket workflow) w
  = ((resources, None), w1) ->
  let run := bucketTerminator workflow ctx bucketDeleter bucketObjectDeleter
                              stackDeleter stackLister stackWaiter in
  let quiet := bucketTerminator workflow ctx bucketDeleter
                                (silenced bucketObjectDeleter)
                                stackDeleter stackLister stackWaiter in
  value run w = None
  /\ value run w = value quiet w
  /\ after run w = after quiet w
  /\ logged (output run w) = logged (output quiet w)
  /\ ops (output run w) = ops (output quiet w)
  /\ ops (output run w)
     = op_GetResourcesForStack (Bucket workflow)
       :: map op_DeleteS3BucketObjects (map PhysicalResourceId resources)
       ++ op_DeleteStack (Name (Bucket workflow))
       :: op_AwaitFinalStatus (Name (Bucket workflow))
       :: map op_DeleteS3Bucket (map PhysicalResourceId resources).
Proof.
  intros H run quiet.
  assert (Hval : value run w = None).
  { subst run.
    destruct (bucketTerminator_timeline w w1 resources H)
      as (? & ? & ? & ? & _ & _ & _ & _ & _ & Hval). exact Hval. }
  split; [exact Hval|].
  assert (Hops : ops (output run w)
     = op_GetResourcesForStack (Bucket workflow)
       :: map op_DeleteS3BucketObjects (map PhysicalResourceId resources)
       ++ op_DeleteStack (Name (Bucket workflow))
       :: op_AwaitFinalStatus (Name (Bucket workflow))
       :: map op_DeleteS3Bucket (map PhysicalResourceId resources))
    by (subst run; now apply (bucketTerminator_ops w w1)).
  destruct (drain_loop_silenced bucketObjectDeleter resources w1)
    as (Ha & Hl & Ho). cbv zeta in Ha, Hl, Ho.
  subst run quiet. unfold bucketTerminator in *.
  revert Hval Hops. run_simpl. rewrite H. run_simpl.
  intros Hval Hops.
  rewrite <- Ha.
  repeat split.
  - rewrite !logged_app. now rewrite Hl.
  - rewrite !ops_app. now rewrite Ho.
  - exact Hops.
Qed.

(** C10. When [GetResourcesForStack] returns an error, the workflow logs
    the resources, returns that error and does nothing else: the only call
    is the resolution itself and the world is the one it left.  No other
    run returns an error. *)
Theorem resources_error_returned (w w1 : World) resources e :
  GetResourcesForStack stackLister (Bucket workflow) w
  = ((resources, Some e), w1) ->
  let run := bucketTerminator workflow ctx bucketDeleter bucketObjectDeleter
                              stackDeleter stackLister stackWaiter in
  run w = (Some e, w1,
           [Called (op_GetResourcesForStack (Bucket workflow))
                   (res_resources resources (Some e));
            Logged Info (msg_resources resources)])
  /\ ops (output run w) = [op_GetResourcesForStack (Bucket workflow)]
  /\ (forall w' e',
         value run w' = Some e' ->
         (GetResourcesForStack stackLister (Bucket workflow) w').1.2
         = Some e').
Proof.
  intros H run. subst run.
  pose proof (bucketTerminator_failed w w1 resources e H) as Hrun.
  split; [exact Hrun|]. split.
  - unfold output. now rewrite Hrun.
  - intros w' e' Hv.
    destruct (GetResourcesForStack stackLister (Bucket workflow) w')
      as [[rs [e2|]] w2] eqn:H'; cbn [fst snd].
    + unfold value in Hv.
      rewrite (bucketTerminator_failed w' w2 rs e2 H') in Hv. exact Hv.
    + destruct (bucketTerminator_timeline w' w2 rs H')
        as (? & ? & ? & ? & _ & _ & _ & _ & _ & Hnone).
      rewrite Hnone in Hv. discriminate Hv.
Qed.
End BucketTermination.

(** ** The purge *)

Lemma flat_map_nil {A B} (l : list A) : flat_map (fun _ : A => @nil B) l = [].
Proof. induction l as [|x l IH]; simpl; [reflexivity|exact IH]. Qed.

Section Purge.
Context {World : Type}.
Variable StackTypeAll : StackType.
Variable sibling : Step -> World -> option error * World.
Variables (workflow : purgeWorkflow) (ctx : Context World).

(** A loop whose body computes the next accumulator and leaves the world
    alone. *)
Lemma forRangeAcc_pure {A S} (f : A -> S -> S) (pre : A -> list Obs)
      (l : list A) (body : A -> S -> M World S) :
  (forall x acc w, body x acc w = (f x acc, w, pre x)) ->
  forall acc (w : World),
    forRangeAcc l body acc w
    = (fold_left (fun a x => f x a) l acc, w, flat_map pre l).
Proof.
  intros Hbody. induction l as [|x l IH]; intros acc w;
    cbn [forRangeAcc flat_map fold_left].
  - reflexivity.
  - rewrite run_bind. unfold value, after, output.
    rewrite Hbody. cbn [fst snd]. now rewrite IH.
Qed.

Lemma purgePlan_run (stacks : list Stack) (w : World) :
  purgePlan ctx stacks w
  = (orderedPlan (ctx_Namespace ctx) stacks, w,
     flat_map (fun bucket =>
                 [Logged Info (msg_bucket_stack (Name bucket)
                                                (Tags bucket))])
              (filterStacksByType stacks StackTypeBucket)).
Proof.
  unfold purgePlan, orderedPlan.
  rewrite run_bind. unfold value, after, output.
  rewrite (forRangeAcc_append (serviceSteps (ctx_Namespace ctx))
             (fun _ => []) (filterStacksByType stacks StackTypeService)).
  2:{ intros x acc w0. cbv zeta. unfold ret, serviceSteps.
      repeat rewrite <- List.app_assoc. reflexivity. }
  cbn [fst snd app].
  rewrite run_bind. unfold value, after, output.
  rewrite (forRangeAcc_append (environmentSteps (ctx_Namespace ctx))
             (fun _ => []) (filterStacksByType stacks StackTypeEnv)).
  2:{ intros x acc w0. cbv zeta. unfold ret, environmentSteps.
      repeat rewrite <- List.app_assoc. reflexivity. }
  cbn [fst snd app].
  rewrite run_bind. unfold value, after, output.
  rewrite (forRangeAcc_append (pipelineSteps (ctx_Namespace ctx))
             (fun _ => []) (filterStacksByType stacks StackTypePipeline)).
  2:{ intros x acc w0. cbv zeta. unfold ret, pipelineSteps.
      repeat rewrite <- List.app_assoc. reflexivity. }
  cbn [fst snd app].
  rewrite (forRangeAcc_append bucketSteps
             (fun bucket => [Logged Info (msg_bucket_stack (Name bucket)
                                                           (Tags bucket))])).
  2:{ intros x acc w0. rewrite run_bind. reflexivity. }
  rewrite !flat_map_nil. cbn [app]. repeat rewrite <- List.app_assoc.
  reflexivity.
Qed.

(** The table step leaves the world alone and emits table output only. *)
Lemma purgeTable_run (stacks : list Stack) (w : World) :
  exists rows,
    purgeTable stacks w
    = (length (List.filter (fun s => snd (index_ok (Tags s) "type")) stacks),
       w, map Appended rows ++ [Rendered]).
Proof.
  unfold purgeTable. rewrite run_bind. unfold value, after, output.
  rewrite (forRangeAcc_pure
             (fun s n => if snd (index_ok (Tags s) "type") then S n else n)
             (fun s =>
                if snd (index_ok (Tags s) "type")
                then [Appended {| row_type := fst (index_ok (Tags s) "type");
                                  row_name := Name s;
                                  row_status := Status s;
                                  row_reason := StatusReason s;
                                  row_time := LastUpdateTime s |}]
                else [])).
  2:{ intros x acc w0. destruct (index_ok (Tags x) "type") as [t [|]];
        cbn [fst snd]; [rewrite run_bind|]; reflexivity. }
  cbn [fst snd]. rewrite run_bind. cbn [emit ret value after output fst snd].
  exists (omap (fun s =>
                  if snd (index_ok (Tags s) "type")
                  then Some {| row_type := fst (index_ok (Tags s) "type");
                               row_name := Name s;
                               row_status := Status s;
                               row_reason := StatusReason s;
                               row_time := LastUpdateTime s |}
                  else None) stacks).
  f_equal; [f_equal|].
  - change (length (List.filter (fun s => snd (index_ok (Tags s) "type"))
                                 stacks))
      with (0 + length (List.filter
                          (fun s => snd (index_ok (Tags s) "type"))
                          stacks))%nat.
    generalize 0%nat.
    induction stacks as [|s l IH]; intros n;
      cbn [fold_left List.filter length]; [lia|].
    rewrite IH. destruct (snd (index_ok (Tags s) "type"));
      cbn [length]; lia.
  - f_equal. induction stacks as [|s l IH]; cbn [flat_map omap map];
      [reflexivity|].
    cbn [list_omap]. fold (@omap list _ Stack Row).
    destruct (snd (index_ok (Tags s) "type")); cbn [app map];
      now rewrite IH.
Qed.

Lemma run_parts {A} (c : M World A) (w w1 : World) a out :
  c w = (a, w1, out) -> value c w = a /\ after c w = w1 /\ output c w = out.
Proof. unfold value, after, output. now intros ->. Qed.

Lemma started_table (rows : list Row) :
  started (map Appended rows) = [].
Proof. induction rows as [|r l IH]; [reflexivity|exact IH]. Qed.

Lemma started_bucket_lines (buckets : list Stack) :
  started (flat_map (fun bucket =>
                       [Logged Info (msg_bucket_stack (Name bucket)
                                                      (Tags bucket))])
                    buckets) = [].
Proof. induction buckets as [|b l IH]; [reflexivity|exact IH]. Qed.

(** Entering an executor of the plan is marked once. *)
Lemma executor_started (s : Step) (w : World) :
  started (output (executor sibling ctx s) w) = [s].
Proof.
  unfold executor. rewrite output_bind, output_emit, started_app, after_emit.
  cbn [started omap list_omap app]. f_equal.
  destruct s; try (unfold output; now destruct (sibling _ w)).
  apply bucketTerminator_started.
Qed.


(** Continue-on-error composition enters every executor, in order,
    whatever the executors return. *)
Lemma noStop_started (steps : list Step) (w : World) :
  started (output (newPipelineExecutorNoStop
                     (map (executor sibling ctx) steps)) w) = steps.
Proof.
  revert w. induction steps as [|s l IH]; intros w;
    cbn [map newPipelineExecutorNoStop]; [reflexivity|].
  rewrite output_bind, started_app, executor_started.
  rewrite output_bind, started_app, IH.
  destruct (value (executor sibling ctx s) w); reflexivity.
Qed.

Lemma purgeWorker_run (wf : purgeWorkflow)
      (stackLister : StackManager World) (w : World) :
  value (purgeWorker StackTypeAll sibling wf ctx stackLister) w = None
  /\ started (output (purgeWorker StackTypeAll sibling wf ctx
                                  stackLister) w)
     = orderedPlan (ctx_Namespace ctx)
         (removeStacksByStatus (ListStacks stackLister StackTypeAll w).1.1
                               [StackStatusRollbackComplete]).
Proof.
  unfold purgeWorker.
  rewrite value_bind, output_bind, value_call, after_call, output_call.
  destruct (ListStacks stackLister StackTypeAll w) as [[listed err] w1].
  cbn [fst snd].
  set (stacks := removeStacksByStatus listed [StackStatusRollbackComplete]).
  rewrite value_bind, output_bind.
  assert (Hwarn : after (match err with
                         | Some _ => log Warning msg_list_failed
                         | None => ret tt
                         end) w1 = w1) by now destruct err.
  rewrite Hwarn.
  destruct (purgeTable_run stacks w1) as [rows Htable].
  apply run_parts in Htable as (Ht1 & Ht2 & Ht3).
  destruct (run_parts _ _ _ _ _ (purgePlan_run stacks w1))
    as (Hp1 & Hp2 & Hp3).
  rewrite !value_bind, !output_bind, ?after_bind.
  rewrite Ht1, Ht2, Ht3, Hp1, Hp2, Hp3.
  split.
  - reflexivity.
  - rewrite !started_app, started_table, started_bucket_lines.
    rewrite after_log, noStop_started.
    destruct err; cbn [started omap list_omap app output log emit ret snd];
      now rewrite app_nil_r.
Qed.

(** C1. For every inventory the assembled plan is ordered by kind: the two
    steps of every service stack, then for every environment stack the
    seven terminators (services, database, container cluster, discovery
    agent, roles, load balancer, network), then the three steps of every
    pipeline stack, then one bucket terminator per bucket stack. *)
Theorem plan_ordered_by_kind (stacks : list Stack) (w : World) :
  let namespace := ctx_Namespace ctx in
  value (purgePlan ctx stacks) w
  = flat_map (serviceSteps namespace)
             (filterStacksByType stacks StackTypeService)
    ++ flat_map (environmentSteps namespace)
                (filterStacksByType stacks StackTypeEnv)
    ++ flat_map (pipelineSteps namespace)
                (filterStacksByType stacks StackTypePipeline)
    ++ map (fun bucket => bucketTerminate {| Bucket := bucket |})
           (filterStacksByType stacks StackTypeBucket)
  /\ (forall stack,
         environmentSteps namespace stack
         = let envName := index (Tags stack) "environment" in
           [ environmentServiceTerminator envName;
             environmentDbTerminator envName;
             environmentEcsTerminator namespace envName;
             environmentConsulTerminator namespace envName;
             environmentRolesetTerminator envName;
             environmentElbTerminator namespace envName;
             environmentVpcTerminator namespace envName ])
  /\ (forall stack,
         pipelineSteps namespace stack
         = [ serviceFinder (index (Tags stack) "service");
             pipelineTerminator namespace;
             pipelineRolesetTerminator ]).
Proof.
  cbv zeta. split; [|split; reflexivity].
  unfold value. rewrite purgePlan_run. cbn [fst]. unfold orderedPlan.
  assert (Hb : forall l,
             flat_map bucketSteps l
             = map (fun bucket => bucketTerminate {| Bucket := bucket |}) l).
  { induction l as [|b l IH]; [reflexivity|].
    cbn [flat_map map bucketSteps app]. now rewrite IH. }
  now rewrite Hb.
Qed.


Lemma service_steps_kept (namespace : string) (l : list Stack) :
  List.filter is_service_step (flat_map (serviceSteps namespace) l)
  = flat_map (serviceSteps namespace) l.
Proof.
  induction l as [|x l IH]; [reflexivity|].
  cbn [flat_map serviceSteps app List.filter is_service_step].
  now rewrite IH.
Qed.

Lemma other_steps_dropped (g : Stack -> list Step) (l : list Stack) :
  (forall x, List.filter is_service_step (g x) = []) ->
  List.filter is_service_step (flat_map g l) = [].
Proof.
  intros Hg. induction l as [|x l IH]; [reflexivity|].
  cbn [flat_map]. now rewrite List.filter_app, Hg, IH.
Qed.

Lemma service_part (namespace : string) (stacks : list Stack) :
  List.filter is_service_step (orderedPlan namespace stacks)
  = flat_map (serviceSteps namespace)
             (filterStacksByType stacks StackTypeService).
Proof.
  unfold orderedPlan.
  rewrite !List.filter_app, service_steps_kept.
  rewrite !other_steps_dropped by reflexivity.
  now rewrite !app_nil_r.
Qed.

Lemma length_service_steps (namespace : string) (l : list Stack) :
  length (flat_map (serviceSteps namespace) l) = 2 * length l.
Proof.
  induction l as [|x l IH]; [reflexivity|].
  cbn [flat_map serviceSteps app length]. rewrite IH. lia.
Qed.

(** The plan of an inventory made of one live service stack. *)
Lemma single_service_plan (namespace : string) (s : Stack) :
  index (Tags s) "type" = StackTypeService ->
  Status s <> StackStatusRollbackComplete ->
  orderedPlan namespace
    (removeStacksByStatus [s] [StackStatusRollbackComplete])
  = serviceSteps namespace s.
Proof.
  intros Htype Hstatus.
  assert (removeStacksByStatus [s] [StackStatusRollbackComplete] = [s])
    as ->.
  { unfold removeStacksByStatus. cbn [fold_left].
    destruct (String.eqb_spec (Status s) StackStatusRollbackComplete);
      [contradiction|reflexivity]. }
  unfold orderedPlan, filterStacksByType. cbn [fold_left].
  rewrite Htype. cbn. reflexivity.
Qed.

(** C6.  Every service stack contributes exactly two steps to the plan,
    [serviceInput] for its [service] tag and then [serviceUndeployer] for
    its [environment] tag; an inventory made of one live service stack
    gives a plan of these two steps, both are entered, and the run returns
    no error. *)
Theorem service_stack_two_steps (stackLister : StackManager World)
        (w w1 : World) (s : Stack) (err : option error) :
  ListStacks stackLister StackTypeAll w = (([s], err), w1) ->
  index (Tags s) "type" = StackTypeService ->
  Status s <> StackStatusRollbackComplete ->
  let run := purgeWorker StackTypeAll sibling workflow ctx stackLister in
  let two := [ serviceInput (index (Tags s) "service");
               serviceUndeployer (ctx_Namespace ctx)
                                 (index (Tags s) "environment") ] in
  value (purgePlan ctx
           (removeStacksByStatus [s] [StackStatusRollbackComplete])) w1
  = two
  /\ started (output run w) = two
  /\ value run w = None
  /\ (forall stacks w',
         List.filter is_service_step (value (purgePlan ctx stacks) w')
         = flat_map (serviceSteps (ctx_Namespace ctx))
                    (filterStacksByType stacks StackTypeService))
  /\ (forall stacks w',
         length (List.filter is_service_step
                             (value (purgePlan ctx stacks) w'))
         = 2 * length (filterStacksByType stacks StackTypeService)).
Proof.
  intros H Htype Hstatus run two. subst run two.
  destruct (purgeWorker_run workflow stackLister w) as [Hv Hs].
  rewrite H in Hs. cbn [fst snd] in Hs.
  rewrite (single_service_plan _ s Htype Hstatus) in Hs.
  assert (Hplan : forall stacks w',
             value (purgePlan ctx stacks) w'
             = orderedPlan (ctx_Namespace ctx) stacks).
  { intros stacks w'. unfold value. now rewrite purgePlan_run. }
  split; [|split; [exact Hs|split; [exact Hv|split]]].
  - rewrite Hplan. now apply single_service_plan.
  - intros stacks w'. rewrite Hplan. apply service_part.
  - intros stacks w'. rewrite Hplan, service_part.
    apply length_service_steps.
Qed.

End Purge.

(** ** The theorems at the sample collaborators *)


Lemma drain_errors_discarded_witness :
  value (bucketTerminator logs_workflow (mu_context stubborn)
           stubborn stubborn stubborn stubborn stubborn) 0 = None
  /\ logged (output (bucketTerminator logs_workflow (mu_context stubborn)
                       stubborn stubborn stubborn stubborn stubborn) 0)
     = logged (output (bucketTerminator logs_workflow (mu_context stubborn)
                         stubborn (silenced stubborn) stubborn stubborn
                         stubborn) 0).
Proof.
  destruct (drain_errors_discarded logs_workflow (mu_context stubborn)
              stubborn stubborn stubborn stubborn stubborn
              0 1 two_buckets eq_refl) as (Hnone & _ & _ & Hlog & _).
  split; [exact Hnone|exact Hlog].
Defined.

Lemma resources_error_returned_witness :
  bucketTerminator logs_workflow (mu_context unresolved)
    unresolved unresolved unresolved unresolved unresolved 0
  = (Some (other_error "stack not found"), 1,
     [ Called (op_GetResourcesForStack logs_bucket)
              (res_resources [] (Some (other_error "stack not found")));
       Logged Info (msg_resources []) ]).
Proof.
  exact (proj1 (resources_error_returned logs_workflow (mu_context unresolved)
                  unresolved unresolved unresolved unresolved unresolved
                  0 1 [] (other_error "stack not found") eq_refl)).
Defined.

Lemma service_stack_two_steps_witness :
  started (output (purgeWorker "all" failing {| RepoName := "" |}
                     (mu_context web_only) web_only) 0)
  = [ serviceInput "web"; serviceUndeployer "mu" "prod" ]
  /\ value (purgeWorker "all" failing {| RepoName := "" |}
              (mu_context web_only) web_only) 0 = None.
Proof.
  assert (Htype : index (Tags svc_web) "type" = StackTypeService)
    by (vm_compute; reflexivity).
  assert (Hstatus : Status svc_web <> StackStatusRollbackComplete)
    by discriminate.
  destruct (service_stack_two_steps "all" failing {| RepoName := "" |}
              (mu_context web_only) web_only 0 1 svc_web None
              eq_refl Htype Hstatus) as (_ & Hsteps & Hnone & _).
  split; [|exact Hnone].
  rewrite Hsteps. vm_compute. reflexivity.
Defined.

(** * Further properties *)

(** ** Composition of the inventory filters *)

Lemma filter_filter_bool {A} (f g : A -> bool) (l : list A) :
  List.filter f (List.filter g l) = List.filter (fun x => g x && f x) l.
Proof.
  induction l as [|x l IH]; cbn [List.filter]; [reflexivity|].
  destruct (g x); cbn [List.filter andb]; [destruct (f x)|]; now rewrite IH.
Qed.

Lemma filter_none_bool {A} (f : A -> bool) (l : list A) :
  (forall x, f x = false) -> List.filter f l = [].
Proof.
  intros H. induction l as [|x l IH]; cbn [List.filter]; [reflexivity|].
  now rewrite H.
Qed.

Lemma filter_length_bool {A} (f : A -> bool) (l : list A) :
  length (List.filter f l) <= length l.
Proof.
  induction l as [|x l IH]; cbn [List.filter length]; [lia|].
  destruct (f x); cbn [length]; lia.
Qed.

(** X1.  Excluding the statuses of two lists at once is excluding the first
    list and then the second. *)
Theorem removeStacksByStatus_app_statuses (S : list Stack)
        (E1 E2 : list string) :
  removeStacksByStatus S (E1 ++ E2)
  = removeStacksByStatus (removeStacksByStatus S E1) E2.
Proof.
  rewrite !removeStacksByStatus_filter. unfold ExcludeByStatus.
  rewrite filter_filter_bool. apply filter_ext_bool. intros s.
  rewrite <- negb_orb. f_equal.
  destruct (decide (Status s ∈ E1)) as [H1|H1];
    destruct (decide (Status s ∈ E2)) as [H2|H2];
    rewrite ?(bool_decide_eq_true_2 _ H1), ?(bool_decide_eq_false_2 _ H1),
            ?(bool_decide_eq_true_2 _ H2), ?(bool_decide_eq_false_2 _ H2);
    cbn [orb];
    try (apply bool_decide_eq_true_2; rewrite elem_of_app; tauto).
  apply bool_decide_eq_false_2. rewrite elem_of_app. tauto.
Qed.

(** X2.  The result depends on which statuses are excluded only: order and
    repetitions in the exclusion list do not matter. *)
Theorem removeStacksByStatus_same_statuses (S : list Stack)
        (E1 E2 : list string) :
  (forall status, status ∈ E1 <-> status ∈ E2) ->
  removeStacksByStatus S E1 = removeStacksByStatus S E2.
Proof.
  intros H. rewrite !removeStacksByStatus_filter. unfold ExcludeByStatus.
  apply filter_ext_bool. intros s. f_equal. apply bool_decide_ext, H.
Qed.

Lemma removeStacksByStatus_same_statuses_witness :
  removeStacksByStatus [old_env; svc_web; logs_bucket]
    ["ROLLBACK_COMPLETE"; "CREATE_COMPLETE"; "ROLLBACK_COMPLETE"]
  = removeStacksByStatus [old_env; svc_web; logs_bucket]
      ["CREATE_COMPLETE"; "ROLLBACK_COMPLETE"].
Proof.
  apply removeStacksByStatus_same_statuses. intros status.
  rewrite !elem_of_cons, elem_of_nil. tauto.
Defined.

(** X3.  The two filters commute. *)
Theorem filters_commute (S : list Stack) (E : list string) (T : StackType) :
  filterStacksByType (removeStacksByStatus S E) T
  = removeStacksByStatus (filterStacksByType S T) E.
Proof.
  rewrite !removeStacksByStatus_filter, !filterStacksByType_index.
  unfold ExcludeByStatus. rewrite !filter_filter_bool.
  apply filter_ext_bool. intros s. apply andb_comm.
Qed.

(** X4.  No stack is selected for two different types: selecting by a second
    type among the stacks of a first one gives nothing. *)
Theorem filterStacksByType_disjoint (S : list Stack) (T1 T2 : StackType) :
  T1 <> T2 ->
  filterStacksByType (filterStacksByType S T1) T2 = []
  /\ (forall s, s ∈ filterStacksByType S T1 ->
                s ∈ filterStacksByType S T2 -> False).
Proof.
  intros Hne. split.
  - rewrite !filterStacksByType_index, filter_filter_bool.
    apply filter_none_bool. intros s.
    destruct (String.eqb_spec (index (Tags s) "type") T1) as [->|];
      [|reflexivity].
    cbn [andb]. now apply String.eqb_neq.
  - intros s H1 H2. rewrite filterStacksByType_index in H1, H2.
    apply elem_of_bool_filter in H1 as [_ H1].
    apply elem_of_bool_filter in H2 as [_ H2].
    apply String.eqb_eq in H1, H2. congruence.
Qed.

Lemma filterStacksByType_disjoint_witness :
  filterStacksByType
    (filterStacksByType [svc_web; old_env; logs_bucket] "service")
    "bucket" = [].
Proof.
  apply (filterStacksByType_disjoint [svc_web; old_env; logs_bucket]
           "service" "bucket").
  discriminate.
Defined.

(** X5.  Both filters work stack by stack: the result for a concatenation is
    the concatenation of the results, and no result is longer than its
    input. *)
Theorem filters_distribute_over_append (S1 S2 : list Stack)
        (E : list string) (T : StackType) :
  removeStacksByStatus (S1 ++ S2) E
  = removeStacksByStatus S1 E ++ removeStacksByStatus S2 E
  /\ filterStacksByType (S1 ++ S2) T
     = filterStacksByType S1 T ++ filterStacksByType S2 T
  /\ length (removeStacksByStatus S1 E) <= length S1
  /\ length (filterStacksByType S1 T) <= length S1.
Proof.
  rewrite !removeStacksByStatus_filter, !filterStacksByType_index.
  unfold ExcludeByStatus. rewrite !List.filter_app.
  repeat split; apply filter_length_bool.
Qed.

(** X6.  Both filters are idempotent. *)
Theorem filters_idempotent (S : list Stack) (E : list string)
        (T : StackType) :
  removeStacksByStatus (removeStacksByStatus S E) E = removeStacksByStatus S E
  /\ filterStacksByType (filterStacksByType S T) T = filterStacksByType S T.
Proof.
  rewrite !removeStacksByStatus_filter, !filterStacksByType_index.
  unfold ExcludeByStatus. rewrite !filter_filter_bool.
  split; apply filter_ext_bool; intros s; apply andb_diag.
Qed.

(** ** The progress table and the plan *)

Lemma length_flat_map_const {A B} (g : A -> list B) (k : nat) (l : list A) :
  (forall x, length (g x) = k) -> length (flat_map g l) = k * length l.
Proof.
  intros H. induction l as [|x l IH]; cbn [flat_map length]; [lia|].
  rewrite length_app, H, IH. lia.
Qed.

Lemma filterStacksByType_skip (S1 S2 : list Stack) (s : Stack)
      (T : StackType) :
  index (Tags s) "type" <> T ->
  filterStacksByType (S1 ++ s :: S2) T = filterStacksByType (S1 ++ S2) T.
Proof.
  intros H. rewrite !filterStacksByType_index, !List.filter_app.
  cbn [List.filter]. apply String.eqb_neq in H. now rewrite H.
Qed.

Lemma wired_false (t : string) :
  wired t = false ->
  t <> StackTypeService /\ t <> StackTypeEnv /\ t <> StackTypePipeline
  /\ t <> StackTypeBucket.
Proof.
  unfold wired. rewrite !orb_false_iff, !String.eqb_neq. tauto.
Qed.

Section PlanAndTable.
Context {World : Type}.
Variable ctx : Context World.

(** The table loop in closed form. *)
Lemma purgeTable_closed_form (stacks : list Stack) (w : World) :
  purgeTable stacks w
  = (length (tableRows stacks), w,
     map Appended (tableRows stacks) ++ [Rendered]).
Proof.
  unfold purgeTable. rewrite run_bind. unfold value, after, output.
  rewrite (forRangeAcc_pure
             (fun s n => if snd (index_ok (Tags s) "type") then S n else n)
             (fun s =>
                if snd (index_ok (Tags s) "type")
                then [Appended {| row_type := fst (index_ok (Tags s) "type");
                                  row_name := Name s;
                                  row_status := Status s;
                                  row_reason := StatusReason s;
                                  row_time := LastUpdateTime s |}]
                else [])).
  2:{ intros x acc w0. destruct (index_ok (Tags x) "type") as [t [|]];
        cbn [fst snd]; [rewrite run_bind|]; reflexivity. }
  cbn [fst snd]. rewrite run_bind. cbn [emit ret value after output fst snd].
  f_equal; [f_equal|].
  - change (length (tableRows stacks))
      with (0 + length (tableRows stacks))%nat.
    generalize 0%nat.
    induction stacks as [|s l IH]; intros n; cbn [fold_left];
      [cbn; lia|].
    rewrite IH. unfold tableRows, index_ok. cbn [omap list_omap].
    destruct (Tags s !! "type"); cbn [snd length]; lia.
  - f_equal. induction stacks as [|s l IH]; [reflexivity|].
    cbn [flat_map]. rewrite IH. unfold tableRows, index_ok.
    cbn [omap list_omap].
    destruct (Tags s !! "type"); reflexivity.
Qed.

(** X7.  The table step appends one row per stack that carries a [type]
    tag, in inventory order and with the stack's own type, name, status,
    reason and time, renders the table once after the rows, returns the
    number of rows and leaves the world alone; a stack without the tag gets
    no row. *)
Theorem purgeTable_exact (stacks : list Stack) (w : World) :
  purgeTable stacks w
  = (length (tableRows stacks), w,
     map Appended (tableRows stacks) ++ [Rendered]).
Proof.
  apply purgeTable_closed_form.
Qed.

(** X8.  Every stack for which steps are planned has a row: the stacks of
    the four planned kinds number at most [stackCount], which is at most the
    size of the inventory. *)
Theorem planned_stacks_are_counted (stacks : list Stack) (w : World) :
  length (filterStacksByType stacks StackTypeService)
  + length (filterStacksByType stacks StackTypeEnv)
  + length (filterStacksByType stacks StackTypePipeline)
  + length (filterStacksByType stacks StackTypeBucket)
  <= value (purgeTable stacks) w
  /\ value (purgeTable stacks) w <= length stacks.
Proof.
  unfold value. rewrite purgeTable_closed_form. cbn [fst].
  rewrite !filterStacksByType_index.
  induction stacks as [|s l IH]; [cbn; lia|].
  unfold tableRows in *. cbn [List.filter omap list_omap length].
  fold (@omap list _ Stack Row) in *.
  destruct (String.eqb_spec (index (Tags s) "type") StackTypeService)
    as [E1|];
    destruct (String.eqb_spec (index (Tags s) "type") StackTypeEnv) as [E2|];
    destruct (String.eqb_spec (index (Tags s) "type") StackTypePipeline)
      as [E3|];
    destruct (String.eqb_spec (index (Tags s) "type") StackTypeBucket)
      as [E4|];
    try (rewrite E1 in *; discriminate);
    try (rewrite E2 in *; discriminate);
    try (rewrite E3 in *; discriminate);
    destruct (Tags s !! "type") as [t|] eqn:Ht; cbn [length];
    try lia;
    unfold index in *; rewrite Ht in *; discriminate.
Qed.

(** X9.  The plan has two steps per service stack, seven per environment
    stack, three per pipeline stack and one per bucket stack. *)
Theorem plan_length (stacks : list Stack) (w : World) :
  length (value (purgePlan ctx stacks) w)
  = 2 * length (filterStacksByType stacks StackTypeService)
    + 7 * length (filterStacksByType stacks StackTypeEnv)
    + 3 * length (filterStacksByType stacks StackTypePipeline)
    + length (filterStacksByType stacks StackTypeBucket).
Proof.
  unfold value. rewrite purgePlan_run. cbn [fst]. unfold orderedPlan.
  rewrite !length_app.
  rewrite (length_flat_map_const _ 2), (length_flat_map_const _ 7),
          (length_flat_map_const _ 3), (length_flat_map_const _ 1)
    by reflexivity.
  lia.
Qed.

(** What building the plan emits. *)
Lemma purgePlan_quiet (stacks : list Stack) (w : World) :
  after (purgePlan ctx stacks) w = w
  /\ output (purgePlan ctx stacks) w = bucketLines stacks
  /\ ops (output (purgePlan ctx stacks) w) = [].
Proof.
  unfold after, output. rewrite purgePlan_run. cbn [fst snd].
  assert (H : flat_map (fun bucket =>
                          [Logged Info (msg_bucket_stack (Name bucket)
                                                         (Tags bucket))])
                       (filterStacksByType stacks StackTypeBucket)
              = bucketLines stacks).
  { unfold bucketLines.
    induction (filterStacksByType stacks StackTypeBucket) as [|b l IH];
      [reflexivity|]. cbn [flat_map map app]. now rewrite IH. }
  rewrite H. clear H. repeat split. unfold bucketLines.
  induction (filterStacksByType stacks StackTypeBucket) as [|b l IH];
    [reflexivity|exact IH].
Qed.

(** X10.  Building the plan contacts no collaborator and leaves the world
    alone; all it emits is one line per bucket stack, in inventory order. *)
Theorem plan_assembly_is_quiet (stacks : list Stack) (w : World) :
  after (purgePlan ctx stacks) w = w
  /\ output (purgePlan ctx stacks) w = bucketLines stacks
  /\ ops (output (purgePlan ctx stacks) w) = [].
Proof.
  apply purgePlan_quiet.
Qed.

(** X11.  A stack whose [type] tag is missing or names none of the four
    planned kinds changes nothing in the plan, wherever it stands in the
    inventory. *)
Theorem unplanned_stack_ignored (S1 S2 : list Stack) (s : Stack)
        (w : World) :
  wired (index (Tags s) "type") = false ->
  purgePlan ctx (S1 ++ s :: S2) w = purgePlan ctx (S1 ++ S2) w.
Proof.
  intros H. apply wired_false in H as (Hs & He & Hp & Hb).
  rewrite !purgePlan_run. unfold orderedPlan.
  now rewrite !filterStacksByType_skip.
Qed.

(** X12.  An environment stack without an [environment] tag is not skipped:
    its seven terminators are planned for the empty environment name. *)
Theorem environment_without_name (s : Stack) (w : World) :
  index (Tags s) "type" = StackTypeEnv ->
  Tags s !! "environment" = None ->
  value (purgePlan ctx [s]) w
  = [ environmentServiceTerminator "";
      environmentDbTerminator "";
      environmentEcsTerminator (ctx_Namespace ctx) "";
      environmentConsulTerminator (ctx_Namespace ctx) "";
      environmentRolesetTerminator "";
      environmentElbTerminator (ctx_Namespace ctx) "";
      environmentVpcTerminator (ctx_Namespace ctx) "" ].
Proof.
  intros Htype Hname. unfold value. rewrite purgePlan_run. cbn [fst].
  unfold orderedPlan, filterStacksByType. cbn [fold_left]. rewrite Htype.
  cbn. unfold index. now rewrite Hname.
Qed.
End PlanAndTable.

Lemma unplanned_stack_ignored_witness :
  purgePlan (mu_context web_only) ([svc_web] ++ some_vpc :: [logs_bucket]) 0
  = purgePlan (mu_context web_only) ([svc_web] ++ [logs_bucket]) 0.
Proof.
  apply (unplanned_stack_ignored (mu_context web_only)
           [svc_web] [logs_bucket] some_vpc 0).
  vm_compute. reflexivity.
Defined.

Lemma environment_without_name_witness :
  value (purgePlan (mu_context web_only) [nameless_env]) 0
  = [ environmentServiceTerminator "";
      environmentDbTerminator "";
      environmentEcsTerminator "mu" "";
      environmentConsulTerminator "mu" "";
      environmentRolesetTerminator "";
      environmentElbTerminator "mu" "";
      environmentVpcTerminator "mu" "" ].
Proof.
  apply (environment_without_name (mu_context web_only) nameless_env 0).
  - vm_compute. reflexivity.
  - vm_compute. reflexivity.
Defined.

(** ** The purge as a whole *)

Lemma removeStacksByStatus_all (listed : list Stack) (status : string) :
  Forall (fun s => Status s = status) listed ->
  removeStacksByStatus listed [status] = [].
Proof.
  intros H. rewrite removeStacksByStatus_filter. unfold ExcludeByStatus.
  induction H as [|s l Hs _ IH]; [reflexivity|].
  cbn [List.filter].
  rewrite (bool_decide_eq_true_2 (Status s ∈ [status]))
    by (rewrite Hs; apply list_elem_of_here).
  exact IH.
Qed.

Lemma ops_table (rows : list Row) : ops (map Appended rows) = [].
Proof. induction rows as [|r l IH]; [reflexivity|exact IH]. Qed.

Lemma ops_bucketLines (stacks : list Stack) : ops (bucketLines stacks) = [].
Proof.
  unfold bucketLines.
  induction (filterStacksByType stacks StackTypeBucket) as [|b l IH];
    [reflexivity|exact IH].
Qed.

Lemma ops_listWarning err : ops (listWarning err) = [].
Proof. now destruct err. Qed.

Lemma filter_resolution_drains (l : list string) :
  List.filter is_resolution (map op_DeleteS3BucketObjects l) = []
  /\ List.filter is_listing (map op_DeleteS3BucketObjects l) = [].
Proof. induction l as [|x l [IH1 IH2]]; split; auto. Qed.

Lemma filter_resolution_deletes (l : list string) :
  List.filter is_resolution (map op_DeleteS3Bucket l) = []
  /\ List.filter is_listing (map op_DeleteS3Bucket l) = [].
Proof. induction l as [|x l [IH1 IH2]]; split; auto. Qed.

Lemma flat_map_flat_map_nil {A B C} (f : B -> list C) (g : A -> list B)
      (l : list A) :
  (forall x, flat_map f (g x) = []) -> flat_map f (flat_map g l) = [].
Proof.
  intros H. induction l as [|x l IH]; [reflexivity|].
  cbn [flat_map]. now rewrite List.flat_map_app, H, IH.
Qed.

Section WholePurge.
Context {World : Type}.
Variable StackTypeAll : StackType.
Variable sibling : Step -> World -> option error * World.
Variable ctx : Context World.

(** X13.  When every listed stack is in status [ROLLBACK_COMPLETE] the purge
    has nothing to do: no row, an empty plan, no call after the listing and
    no error, whether or not the listing itself failed. *)
Theorem rolled_back_inventory_is_left_alone (workflow : purgeWorkflow)
        (stackLister : StackManager World) (w w1 : World)
        (listed : list Stack) (err : option error) :
  ListStacks stackLister StackTypeAll w = ((listed, err), w1) ->
  Forall (fun s => Status s = StackStatusRollbackComplete) listed ->
  purgeWorker StackTypeAll sibling workflow ctx stackLister w
  = (None, w1,
     Called (op_ListStacks StackTypeAll) (res_stacks listed err)
     :: listWarning err ++ [Rendered; Logged Info (msg_total 0 0)]).
Proof.
  intros H Hall. unfold purgeWorker.
  rewrite run_bind, value_call, after_call, output_call, H. cbn [fst snd].
  rewrite (removeStacksByStatus_all _ _ Hall).
  destruct err; reflexivity.
Qed.

(** The timeline of the purge worker up to the run of the plan. *)
Lemma purgeWorker_output (workflow : purgeWorkflow)
        (stackLister : StackManager World) (w w1 : World)
        (listed : list Stack) (err : option error) :
  ListStacks stackLister StackTypeAll w = ((listed, err), w1) ->
  let stacks := removeStacksByStatus listed [StackStatusRollbackComplete] in
  let plan := value (purgePlan ctx stacks) w1 in
  output (purgeWorker StackTypeAll sibling workflow ctx stackLister) w
  = Called (op_ListStacks StackTypeAll) (res_stacks listed err)
    :: listWarning err
    ++ map Appended (tableRows stacks)
    ++ Rendered
    :: bucketLines stacks
    ++ Logged Info (msg_total (length (tableRows stacks)) (length plan))
    :: output (newPipelineExecutorNoStop (map (executor sibling ctx) plan)) w1.
Proof.
  intros H stacks plan. subst plan. unfold purgeWorker.
  rewrite output_bind, value_call, after_call, output_call, H.
  cbn [fst snd]. fold stacks.
  rewrite output_bind.
  assert (Hwarn : forall w0,
             @after World unit (match err with
                                | Some _ => log Warning msg_list_failed
                                | None => ret tt
                                end) w0 = w0
             /\ @output World unit (match err with
                                    | Some _ => log Warning msg_list_failed
                                    | None => ret tt
                                    end) w0 = listWarning err).
  { intros w0. destruct err; split; reflexivity. }
  destruct (Hwarn w1) as [-> ->]. clear Hwarn.
  destruct (run_parts _ _ _ _ _ (purgeTable_closed_form stacks w1))
    as (Ht1 & Ht2 & Ht3).
  destruct (purgePlan_quiet ctx stacks w1) as (Hp2 & Hp3 & _).
  rewrite ?value_bind, !output_bind, ?after_bind.
  rewrite Ht1, Ht2, Ht3, Hp2, Hp3, after_log, output_log, output_ret.
  cbn [app]. rewrite app_nil_r. f_equal. f_equal.
  rewrite <- !List.app_assoc. reflexivity.
Qed.

(** X14.  What the purge does before it runs the plan: it lists the stacks
    once, warns if the listing failed, emits the rows and renders the table,
    logs the bucket stacks, and logs the number of rows and the number of
    steps; filtering, table and plan leave the world as the listing left it,
    and the plan runs from there. *)
Theorem purge_timeline (workflow : purgeWorkflow)
        (stackLister : StackManager World) (w w1 : World)
        (listed : list Stack) (err : option error) :
  ListStacks stackLister StackTypeAll w = ((listed, err), w1) ->
  let stacks := removeStacksByStatus listed [StackStatusRollbackComplete] in
  let plan := value (purgePlan ctx stacks) w1 in
  output (purgeWorker StackTypeAll sibling workflow ctx stackLister) w
  = Called (op_ListStacks StackTypeAll) (res_stacks listed err)
    :: listWarning err
    ++ map Appended (tableRows stacks)
    ++ Rendered
    :: bucketLines stacks
    ++ Logged Info (msg_total (length (tableRows stacks)) (length plan))
    :: output (newPipelineExecutorNoStop (map (executor sibling ctx) plan)) w1.
Proof.
  apply purgeWorker_output.
Qed.

Lemma executor_calls (s : Step) (w : World) :
  List.filter is_resolution (ops (output (executor sibling ctx s) w))
  = resolutionOf s
  /\ List.filter is_listing (ops (output (executor sibling ctx s) w)) = [].
Proof.
  unfold executor. rewrite output_bind, output_emit, after_emit, ops_app.
  cbn [ops omap list_omap app]. fold (ops).
  destruct s; try (unfold output; destruct (sibling _ w); split; reflexivity).
  cbn [resolutionOf].
  destruct (GetResourcesForStack (ctx_StackManager ctx) (Bucket workflow) w)
    as [[rs [e|]] w1] eqn:H.
  - unfold output. rewrite (bucketTerminator_failed _ _ _ _ _ _ _ w w1 rs e H).
    split; reflexivity.
  - rewrite (bucketTerminator_ops _ _ _ _ _ _ _ w w1 rs H).
    cbn [List.filter is_resolution is_listing].
    rewrite !List.filter_app. cbn [List.filter is_resolution is_listing].
    destruct (filter_resolution_drains (map PhysicalResourceId rs))
      as [-> ->].
    destruct (filter_resolution_deletes (map PhysicalResourceId rs))
      as [-> ->].
    split; reflexivity.
Qed.

Lemma noStop_calls (steps : list Step) (w : World) :
  List.filter is_resolution
    (ops (output (newPipelineExecutorNoStop
                    (map (executor sibling ctx) steps)) w))
  = flat_map resolutionOf steps
  /\ List.filter is_listing
       (ops (output (newPipelineExecutorNoStop
                       (map (executor sibling ctx) steps)) w)) = [].
Proof.
  revert w. induction steps as [|s l IH]; intros w;
    cbn [map newPipelineExecutorNoStop flat_map]; [split; reflexivity|].
  rewrite output_bind, ops_app, output_bind, ops_app, !List.filter_app.
  destruct (executor_calls s w) as [-> ->].
  match goal with
  | |- context [output (newPipelineExecutorNoStop _) ?w0] =>
      destruct (IH w0) as [-> ->]
  end.
  destruct (value (executor sibling ctx s) w); split; reflexivity.
Qed.

(** X15.  Of the calls this file itself makes during a purge, those of
    [purgeWorker] and of the bucket terminators it runs, [ListStacks] occurs
    exactly once and [GetResourcesForStack] exactly once for every bucket
    stack, in inventory order, whatever the earlier steps returned.  The
    calls made inside the steps of the sibling workflows are theirs and are
    not observed. *)
Theorem purge_lists_once_and_resolves_each_bucket
        (workflow : purgeWorkflow) (stackLister : StackManager World)
        (w w1 : World) (listed : list Stack) (err : option error) :
  ListStacks stackLister StackTypeAll w = ((listed, err), w1) ->
  let stacks := removeStacksByStatus listed [StackStatusRollbackComplete] in
  let calls :=
    ops (output (purgeWorker StackTypeAll sibling workflow ctx stackLister)
                w) in
  List.filter is_listing calls = [op_ListStacks StackTypeAll]
  /\ List.filter is_resolution calls
     = map op_GetResourcesForStack
           (filterStacksByType stacks StackTypeBucket).
Proof.
  intros H stacks calls. subst calls.
  rewrite (purgeWorker_output workflow stackLister w w1 listed err H).
  fold stacks.
  rewrite ops_called, ops_app, ops_listWarning, ops_app, ops_table.
  change (ops (Rendered :: ?l)) with (ops l).
  rewrite ops_app, ops_bucketLines, ops_logged.
  cbn [app List.filter is_listing is_resolution].
  destruct (noStop_calls (value (purgePlan ctx stacks) w1) w1) as [-> ->].
  split; [reflexivity|].
  unfold value. rewrite purgePlan_run. cbn [fst]. unfold orderedPlan.
  rewrite !List.flat_map_app.
  rewrite !flat_map_flat_map_nil by reflexivity.
  cbn [app].
  induction (filterStacksByType stacks StackTypeBucket) as [|b l IH];
    [reflexivity|]. cbn [flat_map bucketSteps resolutionOf app map Bucket].
  now rewrite IH.
Qed.

End WholePurge.

Lemma rolled_back_inventory_is_left_alone_witness :
  purgeWorker "all" failing {| RepoName := "" |}
              (mu_context rolled_back_only) rolled_back_only 0
  = (None, 1,
     [ Called (op_ListStacks "all") (res_stacks [old_env] None);
       Rendered;
       Logged Info (msg_total 0 0) ]).
Proof.
  apply (rolled_back_inventory_is_left_alone "all" failing
           (mu_context rolled_back_only) {| RepoName := "" |}
           rolled_back_only 0 1 [old_env] None eq_refl).
  repeat constructor.
Defined.

Lemma purge_timeline_witness :
  output (purgeWorker "all" failing {| RepoName := "" |}
                      (mu_context web_only) web_only) 0
  = [ Called (op_ListStacks "all") (res_stacks [svc_web] None);
      Appended {| row_type := "service"; row_name := "svc-web";
                  row_status := "UPDATE_COMPLETE"; row_reason := "";
                  row_time := 0 |};
      Rendered;
      Logged Info (msg_total 1 2);
      Started (serviceInput "web");
      Logged Warning (msg_step_failed "step failed");
      Started (serviceUndeployer "mu" "prod");
      Logged Warning (msg_step_failed "step failed") ].
Proof.
  rewrite (purge_timeline "all" failing (mu_context web_only)
             {| RepoName := "" |} web_only 0 1 [svc_web] None eq_refl).
  vm_compute. reflexivity.
Defined.

Lemma purge_lists_once_and_resolves_each_bucket_witness :
  List.filter is_resolution
    (ops (output (purgeWorker "all" failing {| RepoName := "" |}
                              (mu_context stubborn) stubborn) 0))
  = [op_GetResourcesForStack logs_bucket].
Proof.
  destruct (purge_lists_once_and_resolves_each_bucket "all" failing
              (mu_context stubborn) {| RepoName := "" |} stubborn
              0 1 [logs_bucket] None eq_refl) as [_ H].
  rewrite H. vm_compute. reflexivity.
Defined.

(** ** More on the bucket termination workflow *)

Lemma logged_called op res (out : list Obs) :
  logged (Called op res :: out) = logged out.
Proof. reflexivity. Qed.

Lemma logged_logged lvl msg (out : list Obs) :
  logged (Logged lvl msg :: out) = (lvl, msg) :: logged out.
Proof. reflexivity. Qed.

Lemma drained_quiet (results : list (Resource * option error)) :
  List.filter is_failure (logged (drained results)) = []
  /\ List.filter reported (drained results) = [].
Proof.
  induction results as [|[r e] l [IH1 IH2]]; [split; reflexivity|].
  cbn [drained flat_map app logged omap list_omap List.filter is_failure
       reported fst snd].
  split; assumption.
Qed.

Lemma removed_reported (results : list (Resource * option error)) :
  length (List.filter is_failure (logged (removed results)))
  = length (List.filter reported (removed results)).
Proof.
  induction results as [|[r [e|]] l IH]; [reflexivity| |];
    cbn [removed flat_map app logged omap list_omap List.filter is_failure
         reported bucketDeleteLog fst snd length];
    [f_equal|]; exact IH.
Qed.

Lemma elem_of_drained (o : Obs) (results : list (Resource * option error)) :
  o ∈ drained results -> drain_obs o = true.
Proof.
  induction results as [|[r e] l IH]; cbn [drained flat_map app fst snd];
    intros H.
  - now apply elem_of_nil in H.
  - apply elem_of_cons in H as [->|H]; [reflexivity|].
    apply elem_of_cons in H as [->|H]; [reflexivity|]. now apply IH.
Qed.

Lemma removed_failures (results : list (Resource * option error)) :
  deletionLines (logged (removed results)) = failedDeletions (removed results)
  /\ Forall (fun o => delete_obs o = true) (removed results).
Proof.
  induction results as [|[r [e|]] l [IH1 IH2]]; [split; [reflexivity|constructor]| |];
    cbn [removed flat_map app bucketDeleteLog fst snd]; fold (removed l).
  - split; [|repeat constructor; exact IH2].
    cbn [logged deletionLines failedDeletions omap list_omap].
    f_equal. exact IH1.
  - split; [exact IH1|constructor; [reflexivity|exact IH2]].
Qed.

Lemma drained_no_deletion (results : list (Resource * option error)) :
  deletionLines (logged (drained results)) = []
  /\ failedDeletions (drained results) = [].
Proof.
  induction results as [|[r e] l [IH1 IH2]]; split; auto.
Qed.

Lemma timeline_as_app (a b c d : Obs) (od dl fl odl : list Obs) :
  a :: b :: od ++ c :: dl ++ d :: fl ++ odl
  = [a; b] ++ od ++ [c] ++ dl ++ [d] ++ fl ++ odl.
Proof. reflexivity. Qed.

Lemma deletionLines_app (a b : list (Level * Message)) :
  deletionLines (a ++ b) = deletionLines a ++ deletionLines b.
Proof. apply omap_app. Qed.

Lemma failedDeletions_app (a b : list Obs) :
  failedDeletions (a ++ b) = failedDeletions a ++ failedDeletions b.
Proof. apply omap_app. Qed.

Section BucketTimeline.
Context {World : Type}.
Variables (workflow : bucketTerminateWorkflow) (ctx : Context World).
Variables bucketDeleter bucketObjectDeleter stackDeleter stackLister
          stackWaiter : StackManager World.

Lemma drain_loop_exact (m : StackManager World) (resources : list Resource)
      (w : World) :
  let loop :=
    forRange resources (fun resource =>
      bind (log Debug (msg_delete_bucket (PhysicalResourceId resource)))
           (fun _ =>
              bind (call (op_DeleteS3BucketObjects
                            (PhysicalResourceId resource)) res_error
                         (DeleteS3BucketObjects m
                            (PhysicalResourceId resource)))
                   (fun _ => ret tt))) in
  exists results,
    map fst results = resources /\ output loop w = drained results.
Proof.
  cbv zeta. revert w.
  induction resources as [|r l IH]; intros w; cbn [forRange].
  - exists []. split; reflexivity.
  - run_simpl.
    destruct (IH (DeleteS3BucketObjects m (PhysicalResourceId r) w).2)
      as (results & Hmap & Hout).
    exists ((r, (DeleteS3BucketObjects m (PhysicalResourceId r) w).1)
              :: results).
    split; [cbn [map fst]; now rewrite Hmap|].
    rewrite Hout. reflexivity.
Qed.

Lemma delete_loop_exact (m : StackManager World) (resources : list Resource)
      (w : World) :
  let loop :=
    forRange resources (fun resource =>
      bind (call (op_DeleteS3Bucket (PhysicalResourceId resource)) res_error
                 (DeleteS3Bucket m (PhysicalResourceId resource)))
           (fun err2 =>
              match err2 with
              | Some (awserr_Error code message) =>
                  log Failure
                      (msg_bucket_not_deleted
                         (Error (awserr_Error code message)))
              | Some (other_error text) =>
                  log Failure
                      (msg_bucket_not_deleted (Error (other_error text)))
              | None => ret tt
              end)) in
  exists results,
    map fst results = resources /\ output loop w = removed results.
Proof.
  cbv zeta. revert w.
  induction resources as [|r l IH]; intros w; cbn [forRange].
  - exists []. split; reflexivity.
  - run_simpl.
    destruct (DeleteS3Bucket m (PhysicalResourceId r) w) as [e w1].
    cbn [fst snd].
    assert (Hafter : forall w0,
      @after World unit
         (match e with
          | Some (awserr_Error code message) =>
              log Failure
                  (msg_bucket_not_deleted
                     (Error (awserr_Error code message)))
          | Some (other_error text) =>
              log Failure
                  (msg_bucket_not_deleted (Error (other_error text)))
          | None => ret tt
          end) w0 = w0
      /\ @output World unit
         (match e with
          | Some (awserr_Error code message) =>
              log Failure
                  (msg_bucket_not_deleted
                     (Error (awserr_Error code message)))
          | Some (other_error text) =>
              log Failure
                  (msg_bucket_not_deleted (Error (other_error text)))
          | None => ret tt
          end) w0 = bucketDeleteLog e).
    { intros w0. destruct e as [[c t|t]|]; split; reflexivity. }
    destruct (Hafter w1) as [-> ->]. clear Hafter.
    destruct (IH w1) as (results & Hmap & Hout).
    exists ((r, e) :: results).
    split; [cbn [map fst]; now rewrite Hmap|].
    rewrite Hout. reflexivity.
Qed.

(** The timeline of the bucket terminator in closed form. *)
Lemma bucketTerminator_output (w w1 : World) (resources : list Resource) :
  GetResourcesForStack stackLister (Bucket workflow) w
  = ((resources, None), w1) ->
  exists drains err svcStack deletes,
    map fst drains = resources
    /\ map fst deletes = resources
    /\ output (bucketTerminator workflow ctx bucketDeleter
                 bucketObjectDeleter stackDeleter stackLister stackWaiter) w
       = Called (op_GetResourcesForStack (Bucket workflow))
                (res_resources resources None)
         :: Logged Info (msg_resources resources)
         :: drained drains
         ++ Called (op_DeleteStack (Name (Bucket workflow))) (res_error err)
         :: deleteStackLog err
         ++ Called (op_AwaitFinalStatus (Name (Bucket workflow)))
                   (res_stack svcStack)
         :: finalStatusLog svcStack
         ++ removed deletes.
Proof.
  intros H. unfold bucketTerminator.
  run_simpl. rewrite H. run_simpl.
  match goal with
  | |- context [after (forRange resources ?b) w1] =>
      destruct (drain_loop_exact bucketObjectDeleter resources w1)
        as (drains & Hd1 & Hd2);
      cbv zeta in Hd2; rewrite Hd2;
      generalize (after (forRange resources b) w1)
  end.
  intros w2.
  destruct (DeleteStack stackDeleter (Name (Bucket workflow)) w2)
    as [err w3]; cbn [fst snd].
  assert (Hlog : forall w0,
    @after World unit (match err with
           | Some (awserr_Error code message) =>
               log Failure (msg_error (Error (awserr_Error code message)))
           | Some (other_error text) =>
               log Failure (msg_error (Error (other_error text)))
           | None => ret tt
           end) w0 = w0
    /\ @output World unit (match err with
           | Some (awserr_Error code message) =>
               log Failure (msg_error (Error (awserr_Error code message)))
           | Some (other_error text) =>
               log Failure (msg_error (Error (other_error text)))
           | None => ret tt
           end) w0 = deleteStackLog err).
  { intros w0. destruct err as [[c t|t]|]; split; reflexivity. }
  destruct (Hlog w3) as [-> ->]. clear Hlog.
  destruct (AwaitFinalStatus stackWaiter (Name (Bucket workflow)) w3)
    as [svcStack w4]; cbn [fst snd].
  assert (Hfin : forall w0,
    @after World unit (match svcStack with
           | Some svc =>
               if negb (HasSuffix (Status svc) "_COMPLETE")
               then log Failure
                        (msg_failed_status (Status svc) (StatusReason svc))
               else ret tt
           | None => ret tt
           end) w0 = w0
    /\ @output World unit (match svcStack with
           | Some svc =>
               if negb (HasSuffix (Status svc) "_COMPLETE")
               then log Failure
                        (msg_failed_status (Status svc) (StatusReason svc))
               else ret tt
           | None => ret tt
           end) w0 = finalStatusLog svcStack).
  { intros w0. unfold finalStatusLog.
    destruct svcStack as [svc|]; [|split; reflexivity].
    destruct (HasSuffix (Status svc) "_COMPLETE"); split; reflexivity. }
  destruct (Hfin w4) as [-> ->]. clear Hfin.
  destruct (delete_loop_exact (ctx_StackManager ctx) resources w4)
    as (deletes & He1 & He2).
  cbv zeta in He2. rewrite He2.
  exists drains, err, svcStack, deletes.
  split; [exact Hd1|]. split; [exact He1|].
  cbn [app]. now rewrite app_nil_r.
Qed.

(** X17.  The whole timeline of a run that resolved its resources: the
    resolution and its log line; for every resource in order a debug line
    and a drain; the stack deletion and, if it failed, its error line; the
    await and, for a returned status not ending in [_COMPLETE], its line;
    for every resource in order a bucket deletion and, if it failed, its
    line.  Nothing else is called or logged. *)
Theorem bucket_timeline_exact (w w1 : World) (resources : list Resource) :
  GetResourcesForStack stackLister (Bucket workflow) w
  = ((resources, None), w1) ->
  exists drains err svcStack deletes,
    map fst drains = resources
    /\ map fst deletes = resources
    /\ output (bucketTerminator workflow ctx bucketDeleter
                 bucketObjectDeleter stackDeleter stackLister stackWaiter) w
       = Called (op_GetResourcesForStack (Bucket workflow))
                (res_resources resources None)
         :: Logged Info (msg_resources resources)
         :: drained drains
         ++ Called (op_DeleteStack (Name (Bucket workflow))) (res_error err)
         :: deleteStackLog err
         ++ Called (op_AwaitFinalStatus (Name (Bucket workflow)))
                   (res_stack svcStack)
         :: finalStatusLog svcStack
         ++ removed deletes.
Proof.
  apply bucketTerminator_output.
Qed.

Lemma elem_of_deleteStackLog (o : Obs) (err : option error) :
  o ∈ deleteStackLog err ->
  exists e, err = Some e /\ o = Logged Failure (msg_error (Error e)).
Proof.
  destruct err as [e|]; cbn [deleteStackLog]; intros H.
  - apply list_elem_of_singleton in H. now exists e.
  - now apply elem_of_nil in H.
Qed.

Lemma elem_of_finalStatusLog (o : Obs) (svcStack : option Stack) :
  o ∈ finalStatusLog svcStack ->
  exists svc,
    svcStack = Some svc
    /\ o = Logged Failure (msg_failed_status (Status svc) (StatusReason svc)).
Proof.
  unfold finalStatusLog. destruct svcStack as [svc|]; intros H.
  - destruct (HasSuffix (Status svc) "_COMPLETE");
      [now apply elem_of_nil in H|].
    apply list_elem_of_singleton in H. now exists svc.
  - now apply elem_of_nil in H.
Qed.

(** X18.  A failed [DeleteStack] is answered with one error line carrying
    the text of the error, and no such line is logged otherwise; the run
    returns no error all the same. *)
Theorem stack_deletion_failure_logged (w w1 : World)
        (resources : list Resource) :
  GetResourcesForStack stackLister (Bucket workflow) w
  = ((resources, None), w1) ->
  let run := bucketTerminator workflow ctx bucketDeleter bucketObjectDeleter
                              stackDeleter stackLister stackWaiter in
  (forall e,
      Called (op_DeleteStack (Name (Bucket workflow))) (res_error (Some e))
        ∈ output run w ->
      (Failure, msg_error (Error e)) ∈ logged (output run w))
  /\ (forall lvl text,
         (lvl, msg_error text) ∈ logged (output run w) ->
         exists e,
           Called (op_DeleteStack (Name (Bucket workflow)))
                  (res_error (Some e)) ∈ output run w
           /\ text = Error e /\ lvl = Failure)
  /\ value run w = None.
Proof.
  intros H run. subst run.
  destruct (bucketTerminator_timeline workflow ctx bucketDeleter
              bucketObjectDeleter stackDeleter stackLister stackWaiter
              w w1 resources H)
    as (out_drain & err & svcStack & out_delete
        & Hout & Hdrain & _ & Hdelete & _ & Hval).
  rewrite Hout. clear Hout.
  split; [|split; [|exact Hval]].
  - intros e Hin. apply elem_of_logged. apply timeline_elem in Hin.
    apply timeline_elem.
    assert (err = Some e) as ->.
    { destruct Hin as [Hin|[Hin|[Hin|[Hin|[Hin|[Hin|[Hin|Hin]]]]]]];
        try discriminate Hin.
      - eapply Forall_elem_of in Hin; [|exact Hdrain]. discriminate Hin.
      - now injection Hin as ->.
      - apply elem_of_deleteStackLog in Hin as (? & _ & Hin).
        discriminate Hin.
      - apply elem_of_finalStatusLog in Hin as (? & _ & Hin).
        discriminate Hin.
      - eapply Forall_elem_of in Hin; [|exact Hdelete]. discriminate Hin. }
    do 4 right. left. apply list_elem_of_here.
  - intros lvl text Hin. apply elem_of_logged in Hin.
    apply timeline_elem in Hin.
    destruct Hin as [Hin|[Hin|[Hin|[Hin|[Hin|[Hin|[Hin|Hin]]]]]]];
      try discriminate Hin.
    + eapply Forall_elem_of in Hin; [|exact Hdrain]. now destruct lvl.
    + apply elem_of_deleteStackLog in Hin as (e & -> & Hin).
      injection Hin as -> ->. exists e. repeat split.
      apply timeline_elem. do 3 right. now left.
    + apply elem_of_finalStatusLog in Hin as (? & _ & Hin).
      discriminate Hin.
    + eapply Forall_elem_of in Hin; [|exact Hdelete]. now destruct lvl.
Qed.

(** X19.  Every failed [DeleteS3Bucket] is answered with one error line
    carrying the text of its error: the texts of these lines are, in order,
    the texts of the errors the bucket deletions returned, and such a line is
    logged at error level only.  The line is given the pointer to the name
    and not the name, so it does not say which bucket it is about. *)
Theorem bucket_deletion_failure_logged (w w1 : World)
        (resources : list Resource) :
  GetResourcesForStack stackLister (Bucket workflow) w
  = ((resources, None), w1) ->
  let out := output (bucketTerminator workflow ctx bucketDeleter
                       bucketObjectDeleter stackDeleter stackLister
                       stackWaiter) w in
  deletionLines (logged out) = failedDeletions out
  /\ (forall lvl text,
         (lvl, msg_bucket_not_deleted text) ∈ logged out -> lvl = Failure).
Proof.
  intros H out. subst out.
  destruct (bucketTerminator_output w w1 resources H)
    as (drains & err & svcStack & deletes & _ & _ & Hout).
  rewrite Hout. clear Hout.
  destruct (removed_failures deletes) as (Hrem & Hobs).
  destruct (drained_no_deletion drains) as (Hd1 & Hd2).
  split.
  - rewrite timeline_as_app.
    rewrite !logged_app, !deletionLines_app, !failedDeletions_app,
            Hd1, Hd2, Hrem.
    destruct err; destruct svcStack as [svc|]; unfold finalStatusLog;
      try destruct (HasSuffix (Status svc) "_COMPLETE"); reflexivity.
  - intros lvl text Hin. apply elem_of_logged in Hin.
    apply timeline_elem in Hin.
    destruct Hin as [Hin|[Hin|[Hin|[Hin|[Hin|[Hin|[Hin|Hin]]]]]]];
      try discriminate Hin.
    + apply elem_of_drained in Hin. now destruct lvl.
    + apply elem_of_deleteStackLog in Hin as (? & _ & Hin).
      discriminate Hin.
    + apply elem_of_finalStatusLog in Hin as (? & _ & Hin).
      discriminate Hin.
    + eapply Forall_elem_of in Hin; [|exact Hobs]. now destruct lvl.
Qed.

Lemma removed_reported_bound (results : list (Resource * option error)) :
  length (List.filter reported (removed results)) <= length results.
Proof.
  unfold removed.
  induction results as [|[r [e|]] l IH]; [cbn; lia| |];
    cbn [flat_map app List.filter reported bucketDeleteLog fst snd length];
    lia.
Qed.

(** X20.  The error lines of a run are as many as the failures it reports:
    one for a failed stack deletion, one for a final status not ending in
    [_COMPLETE], one for each failed bucket deletion, and none for a failed
    drain; so at most two more than there are resources. *)
Theorem error_lines_counted (w w1 : World) (resources : list Resource) :
  GetResourcesForStack stackLister (Bucket workflow) w
  = ((resources, None), w1) ->
  let out := output (bucketTerminator workflow ctx bucketDeleter
                       bucketObjectDeleter stackDeleter stackLister
                       stackWaiter) w in
  length (List.filter is_failure (logged out))
  = length (List.filter reported out)
  /\ length (List.filter is_failure (logged out)) <= length resources + 2.
Proof.
  intros H out. subst out.
  destruct (bucketTerminator_output w w1 resources H)
    as (drains & err & svcStack & deletes & _ & Hlen & Hout).
  rewrite Hout. clear Hout.
  rewrite logged_called, logged_logged, logged_app, logged_called,
          logged_app, logged_called, logged_app.
  cbn [List.filter is_failure reported].
  rewrite !List.filter_app. cbn [List.filter is_failure reported].
  destruct (drained_quiet drains) as [-> ->]. cbn [app].
  pose proof (removed_reported deletes) as Hrem.
  pose proof (removed_reported_bound deletes) as Hbound.
  rewrite <- Hlen, length_map.
  destruct err as [e|]; destruct svcStack as [svc|];
    unfold finalStatusLog;
    cbn [deleteStackLog List.filter reported app];
    try destruct (HasSuffix (Status svc) "_COMPLETE");
    cbn [deleteStackLog logged omap list_omap List.filter is_failure reported
         negb app length];
    rewrite ?length_app, ?List.filter_app, ?length_app;
    cbn [List.filter is_failure reported negb app length];
    split; lia.
Qed.
End BucketTimeline.

Lemma bucket_timeline_exact_witness :
  exists drains err svcStack deletes,
    map fst drains = two_buckets
    /\ map fst deletes = two_buckets
    /\ output (bucketTerminator logs_workflow (mu_context stubborn)
                 stubborn stubborn stubborn stubborn stubborn) 0
       = Called (op_GetResourcesForStack logs_bucket)
                (res_resources two_buckets None)
         :: Logged Info (msg_resources two_buckets)
         :: drained drains
         ++ Called (op_DeleteStack "logs-bucket") (res_error err)
         :: deleteStackLog err
         ++ Called (op_AwaitFinalStatus "logs-bucket") (res_stack svcStack)
         :: finalStatusLog svcStack
         ++ removed deletes.
Proof.
  exact (bucket_timeline_exact logs_workflow (mu_context stubborn)
           stubborn stubborn stubborn stubborn stubborn
           0 1 two_buckets eq_refl).
Defined.

Lemma stack_deletion_failure_logged_witness :
  (Failure, msg_error "ValidationError: delete refused")
    ∈ logged (output (bucketTerminator logs_workflow (mu_context stubborn)
                        stubborn stubborn stubborn stubborn stubborn) 0).
Proof.
  apply (proj1 (stack_deletion_failure_logged logs_workflow
                  (mu_context stubborn)
                  stubborn stubborn stubborn stubborn stubborn
                  0 1 two_buckets eq_refl)
               (awserr_Error "ValidationError" "delete refused")).
  apply list_elem_of_In. vm_compute. tauto.
Defined.

Lemma bucket_deletion_failure_logged_witness :
  deletionLines
    (logged (output (bucketTerminator logs_workflow (mu_context clingy)
                       clingy clingy clingy clingy clingy) 0))
  = [ "BucketNotEmpty: bucket is not empty";
      "BucketNotEmpty: bucket is not empty" ].
Proof.
  rewrite (proj1 (bucket_deletion_failure_logged logs_workflow
                    (mu_context clingy) clingy clingy clingy clingy clingy
                    0 1 two_buckets eq_refl)).
  vm_compute. reflexivity.
Defined.

Lemma error_lines_counted_witness :
  length (List.filter is_failure
            (logged (output (bucketTerminator logs_workflow
                               (mu_context stubborn)
                               stubborn stubborn stubborn stubborn stubborn)
                            0)))
  <= 4.
Proof.
  exact (proj2 (error_lines_counted logs_workflow (mu_context stubborn)
                  stubborn stubborn stubborn stubborn stubborn
                  0 1 two_buckets eq_refl)).
Defined.

(** ** The failed listing and the final status, as the code has them *)

Lemma substring_split (n : nat) (s : string) :
  n <= String.length s ->
  s = (substring 0 n s ++ substring n (String.length s - n) s)%string.
Proof.
  revert s. induction n as [|n IH]; intros s Hn.
  - rewrite Nat.sub_0_r, substring_whole. now destruct s.
  - destruct s as [|c t]; cbn [String.length] in Hn; [lia|].
    cbn [String.length substring Nat.sub].
    change (String c t
            = String c (substring 0 n t
                        ++ substring n (String.length t - n) t)%string).
    f_equal. apply IH. lia.
Qed.

(** The suffix test holds of the strings that end with the suffix, and of
    no other. *)
Lemma HasSuffix_iff (s suffix : string) :
  HasSuffix s suffix = true <-> exists p : string, s = (p ++ suffix)%string.
Proof.
  split.
  - unfold HasSuffix. intros H. apply andb_true_iff in H as [Hlen Hsub].
    apply Nat.leb_le in Hlen. apply String.eqb_eq in Hsub.
    exists (substring 0 (String.length s - String.length suffix) s).
    pose proof (substring_split (String.length s - String.length suffix) s)
      as Hsplit.
    replace (String.length s - (String.length s - String.length suffix))
      with (String.length suffix) in Hsplit by lia.
    rewrite Hsub in Hsplit. apply Hsplit. lia.
  - intros [p ->]. apply HasSuffix_app.
Qed.

Section AsTheCodeHasIt.
Context {World : Type}.
Variable StackTypeAll : StackType.
Variable sibling : Step -> World -> option error * World.
Variables (workflow : bucketTerminateWorkflow) (ctx : Context World).
Variables bucketDeleter bucketObjectDeleter stackDeleter stackLister
          stackWaiter : StackManager World.


(** C8, as the code has it.  After the await, a returned stack whose status
    does not end in [_COMPLETE] is logged with its status and reason, and
    no other failed-status line is logged: not for a status that ends in
    [_COMPLETE], be it one of full success or a rolled-back one, and not
    when no stack is returned.  The workflow then goes on to the bucket
    deletions and returns no error. *)
Theorem unfinished_final_status_logged (w w1 : World)
        (resources : list Resource) :
  GetResourcesForStack stackLister (Bucket workflow) w
  = ((resources, None), w1) ->
  let run := bucketTerminator workflow ctx bucketDeleter bucketObjectDeleter
                              stackDeleter stackLister stackWaiter in
  (forall svc,
      Called (op_AwaitFinalStatus (Name (Bucket workflow)))
             (res_stack (Some svc)) ∈ output run w ->
      (forall p : string, Status svc <> (p ++ "_COMPLETE")%string) ->
      (Failure, msg_failed_status (Status svc) (StatusReason svc))
        ∈ logged (output run w))
  /\ (forall lvl status reason,
         (lvl, msg_failed_status status reason) ∈ logged (output run w) ->
         exists svc,
           Called (op_AwaitFinalStatus (Name (Bucket workflow)))
                  (res_stack (Some svc)) ∈ output run w
           /\ status = Status svc /\ reason = StatusReason svc
           /\ forall p : string, status <> (p ++ "_COMPLETE")%string)
  /\ (forall lvl status reason,
         (lvl, msg_failed_status status reason) ∈ logged (output run w) ->
         IndicatesFullSuccess status = false)
  /\ value run w = None
  /\ exists before,
       ops (output run w)
       = before ++ op_AwaitFinalStatus (Name (Bucket workflow))
           :: map op_DeleteS3Bucket (map PhysicalResourceId resources).
Proof.
  intros H run. subst run.
  destruct (failed_status_line workflow ctx bucketDeleter bucketObjectDeleter
              stackDeleter stackLister stackWaiter w w1 resources H)
    as (Hlogged & Honly & Hval & Hops).
  split; [|split; [|split; [|split; [exact Hval|exact Hops]]]].
  - intros svc Hin Hnot. apply Hlogged; [exact Hin|].
    destruct (HasSuffix (Status svc) "_COMPLETE") eqn:E; [|reflexivity].
    apply HasSuffix_iff in E as [p Hp]. now destruct (Hnot p).
  - intros lvl status reason Hin.
    destruct (Honly lvl status reason Hin) as (svc & Hsvc & -> & -> & E).
    exists svc. repeat split; [exact Hsvc|].
    intros p Hp.
    assert (HasSuffix (Status svc) "_COMPLETE" = true) as E'
      by (apply HasSuffix_iff; now exists p).
    rewrite E in E'. discriminate E'.
  - intros lvl status reason Hin.
    destruct (Honly lvl status reason Hin) as (svc & _ & -> & _ & E).
    unfold IndicatesFullSuccess. now rewrite E.
Qed.
End AsTheCodeHasIt.



(** C8, as the specification states it, fails for a rolled-back status: it
    does not indicate full success, yet it ends in [_COMPLETE] and no
    failed-status line is logged for it. *)
Lemma rolled_back_status_is_not_logged :
  IndicatesFullSuccess (Status rolled_back_update) = false
  /\ Called (op_AwaitFinalStatus "logs-bucket")
            (res_stack (Some rolled_back_update))
       ∈ output (bucketTerminator logs_workflow (mu_context refused)
                   refused refused refused refused refused) 0
  /\ logged (output (bucketTerminator logs_workflow (mu_context refused)
                       refused refused refused refused refused) 0)
     = [ (Info, msg_resources two_buckets);
         (Debug, msg_delete_bucket "logs-a");
         (Debug, msg_delete_bucket "logs-b");
         (Failure, msg_error "AccessDenied: not allowed") ].
Proof.
  split; [vm_compute; reflexivity|]. split; [|vm_compute; reflexivity].
  apply list_elem_of_In. vm_compute. tauto.
Qed.

Lemma unfinished_final_status_logged_witness :
  (Failure, msg_failed_status "DELETE_FAILED" "bucket not empty")
    ∈ logged (output (bucketTerminator logs_workflow (mu_context stubborn)
                        stubborn stubborn stubborn stubborn stubborn) 0).
Proof.
  apply (proj1 (unfinished_final_status_logged logs_workflow
                  (mu_context stubborn)
                  stubborn stubborn stubborn stubborn stubborn
                  0 1 two_buckets eq_refl) delete_failed).
  - apply list_elem_of_In. vm_compute. tauto.
  - intros p Hp.
    assert (E : HasSuffix "DELETE_FAILED" "_COMPLETE" = true)
      by (apply HasSuffix_iff; now exists p).
    discriminate E.
Defined.
